(** * Twitchify: the HTTP / token-lifecycle core ([twitch/http.py])

    A shallow embedding of [HTTPClient] and of what it needs from Python and
    from aiohttp, followed by the properties of the request pipeline, of the
    token validator / refresher, of the background refresh loop and of the
    resource endpoints.

    Conventions of the embedding.
    - A coroutine is a function of the world it runs in: it takes the current
      state of the client object and of the observable traces and gives an
      outcome together with the new state.  Awaiting is sequencing.
    - Everything outside the class is an oracle: the [k]-th request put on the
      wire is answered by [net env k], the [k]-th reading of [time()] is
      [clock env k].  A property proved for every [env] holds for every run.
    - [while True] loops take fuel; running out of it is the outcome
      [OutOfFuel], which is neither a result nor an exception.
    - [_logger.debug], [_logger.info] and [_logger.error] calls are left out;
      [_logger.warning] calls are recorded. *)

From Stdlib Require Import ZArith Lia.
From stdpp Require Import gmap strings list.

Open Scope string_scope.
Open Scope list_scope.
Open Scope Z_scope.

(** ** Decoded JSON values

    What [response.json()] gives: [None], [bool], [int], [str], [list] and
    [dict] with string keys.  Numbers are integers (the provider reports whole
    seconds and ids are strings). *)

#[local] Set Warnings "-register-all".

Inductive json : Type :=
| JNull
| JBool (b : bool)
| JNum (n : Z)
| JStr (s : string)
| JList (items : list json)
| JObj (fields : gmap string json).

(** ** Exceptions *)

(** The errors from outside the taxonomy: the built-in errors of the Python
    expressions in [http.py], and the two errors of the transport that are no
    [OSError].  aiohttp's [ServerDisconnectedError] derives from
    [ClientConnectionError] only, and [asyncio.TimeoutError] is a plain
    [Exception] on the Python versions [setup.py] declares (3.8 to 3.10). *)
Inductive Builtin : Type :=
| TypeError | KeyError | IndexError | AttributeError | RuntimeError
| ServerDisconnectedError | TimeoutError.

(** Modelled from the spec: the exception classes of [twitch/errors.py], which
    [http.py] imports and which is not among the sources.  The taxonomy of
    section 7 with the arguments [http.py] constructs them with, next to the
    [OSError] of the transport and the built-in errors.  [except] clauses
    match them as unrelated classes: none of the taxonomy derives from
    [OSError], nor from another class that [http.py] catches. *)
Inductive Exn : Type :=
| BadRequest
| Unauthorized (message : option string)
| Forbidden (message : option string)
| NotFound
| TwitchServerError
| UnknownError
| HTTPException
| SubscriptionError (subscription version : string)
| OSError
| PyError (kind : Builtin).

(** Modelled from the spec: which failures are the typed ones of the error
    taxonomy (section 7) that an endpoint caller is meant to see. *)
Definition typed (e : Exn) : bool :=
  match e with
  | BadRequest | Unauthorized _ | Forbidden _ | NotFound | TwitchServerError
  | UnknownError | HTTPException | SubscriptionError _ _ => true
  | OSError | PyError _ => false
  end.

(** ** Routes *)

Record Route : Type := { method : string; url : string }.

Definition BASE_ROUTE : string := "https://api.twitch.tv/helix/".

(** [Route.__init__]: [TypeError] when neither a path nor a url is given, the
    url wins over the path. *)
Definition Route_init (method : string) (path url : option string) : Exn + Route :=
  match path, url with
  | None, None => inl (PyError TypeError)
  | _, Some u => inr {| method := method; url := u |}
  | Some p, None => inr {| method := method; url := BASE_ROUTE +:+ p |}
  end.

(** ** The client object, the wire and the traces *)

(** The keyword arguments [http.py] passes on to [session.request]. *)
Inductive Kwargs : Type :=
| NoKwargs
| Params (params : list (string * string))
| JsonBody (data : json).

(** [aiohttp.ClientSession]: its default headers and whether it was closed. *)
Record ClientSession : Type := { headers : gmap string string; closed : bool }.

(** One request as it leaves the session. *)
Record Sent : Type :=
  { sent_method : string; sent_url : string; sent_kwargs : Kwargs;
    sent_headers : gmap string string }.

(** What comes back: a response with its status and decoded body, or a
    failure of the transport.  [TransportFailure] is one that is raised as an
    [OSError] (the connection was refused or reset: [ClientConnectorError],
    [ConnectionResetError]); a disconnecting server and a timeout are raised
    as [ServerDisconnectedError] and [asyncio.TimeoutError], which are not. *)
Inductive Reply : Type :=
| Response (status : Z) (body : json)
| TransportFailure
| ServerDisconnected
| TimedOut.

Record HTTPClient : Type :=
  { _client_id : string;
    _client_secret : option string;
    _refresh_token : option string;
    __session : option ClientSession;
    _session_lock : bool  (* [Lock.locked()] *) }.

Record World : Type :=
  { self : HTTPClient;
    wire : list Sent;                          (* requests sent, oldest first *)
    slept : list Z;                            (* arguments of [sleep], oldest first *)
    dispatched : list (string * list json);    (* [_dispatch] calls, oldest first *)
    printed : list json;                       (* [print] calls, oldest first *)
    warnings : list string;                    (* [_logger.warning] calls *)
    ticks : nat                                (* readings of [time()] so far *) }.

(** What the class does not own: the network, the clock, and the two pure
    library functions [str()] (as an f-string placeholder renders a decoded
    value) and [aiohttp.helpers.quote]. *)
Record Env : Type :=
  { net : nat -> Reply;
    clock : nat -> Z;
    str : json -> string;
    quote : string -> string }.

(** ** Outcomes and the coroutine monad *)

Inductive Outcome (A : Type) : Type :=
| Returned (a : A)
| Raised (e : Exn)
| Suspended        (* waits for a lock another task holds *)
| OutOfFuel.

Arguments Returned {A} a.
Arguments Raised {A} e.
Arguments Suspended {A}.
Arguments OutOfFuel {A}.

Definition M (A : Type) : Type := World -> Outcome A * World.

Definition ret {A} (a : A) : M A := fun w => (Returned a, w).

Definition bind {A B} (m : M A) (k : A -> M B) : M B :=
  fun w =>
    match m w with
    | (Returned a, w') => k a w'
    | (Raised e, w') => (Raised e, w')
    | (Suspended, w') => (Suspended, w')
    | (OutOfFuel, w') => (OutOfFuel, w')
    end.

Definition raise {A} (e : Exn) : M A := fun w => (Raised e, w).

Definition out_of_fuel {A} : M A := fun w => (OutOfFuel, w).

(** [try: body except ...: handler].  The handler says which exceptions it
    takes; the others propagate.  An exception raised by the handler itself
    is not caught again. *)
Definition try_except {A} (body : M A) (handler : Exn -> option (M A)) : M A :=
  fun w =>
    match body w with
    | (Raised e, w') =>
        match handler e with
        | Some h => h w'
        | None => (Raised e, w')
        end
    | r => r
    end.

Declare Scope coroutine_scope.
Delimit Scope coroutine_scope with co.
Bind Scope coroutine_scope with M.

Notation "x <- m ;; k" := (bind m (fun x => k))
  (at level 100, m at next level, right associativity) : coroutine_scope.
Notation "m ;; k" := (bind m (fun _ => k))
  (at level 100, right associativity) : coroutine_scope.

Open Scope coroutine_scope.

Definition lift {A} (r : Exn + A) : M A :=
  match r with
  | inl e => raise e
  | inr a => ret a
  end.

Definition gets {A} (f : HTTPClient -> A) : M A := fun w => (Returned (f (self w)), w).

Definition with_self (f : HTTPClient -> HTTPClient) (w : World) : World :=
  {| self := f (self w); wire := wire w; slept := slept w; dispatched := dispatched w;
     printed := printed w; warnings := warnings w; ticks := ticks w |}.

Definition modify (f : HTTPClient -> HTTPClient) : M unit :=
  fun w => (Returned tt, with_self f w).

Definition set_refresh_token (t : option string) (c : HTTPClient) : HTTPClient :=
  {| _client_id := _client_id c; _client_secret := _client_secret c;
     _refresh_token := t; __session := __session c; _session_lock := _session_lock c |}.

Definition set_session (s : option ClientSession) (c : HTTPClient) : HTTPClient :=
  {| _client_id := _client_id c; _client_secret := _client_secret c;
     _refresh_token := _refresh_token c; __session := s; _session_lock := _session_lock c |}.

Definition set_lock (b : bool) (c : HTTPClient) : HTTPClient :=
  {| _client_id := _client_id c; _client_secret := _client_secret c;
     _refresh_token := _refresh_token c; __session := __session c; _session_lock := b |}.

(** [await sleep(d)]. *)
Definition sleep (d : Z) : M unit :=
  fun w => (Returned tt,
            {| self := self w; wire := wire w; slept := slept w ++ [d];
               dispatched := dispatched w; printed := printed w;
               warnings := warnings w; ticks := ticks w |}).

(** [self._dispatch(name, *args)]. *)
Definition _dispatch (name : string) (args : list json) : M unit :=
  fun w => (Returned tt,
            {| self := self w; wire := wire w; slept := slept w;
               dispatched := dispatched w ++ [(name, args)]; printed := printed w;
               warnings := warnings w; ticks := ticks w |}).

(** The request [session] sends for [route] and [kwargs]. *)
Definition outgoing (route : Route) (kwargs : Kwargs) (session : ClientSession) : Sent :=
  {| sent_method := method route; sent_url := url route; sent_kwargs := kwargs;
     sent_headers := headers session |}.

(** Putting it on the wire. *)
Definition transmit (route : Route) (kwargs : Kwargs) (session : ClientSession)
           (w : World) : World :=
  {| self := self w; wire := wire w ++ [outgoing route kwargs session];
     slept := slept w; dispatched := dispatched w; printed := printed w;
     warnings := warnings w; ticks := ticks w |}.

(** [print(v)]. *)
Definition print (v : json) : M unit :=
  fun w => (Returned tt,
            {| self := self w; wire := wire w; slept := slept w;
               dispatched := dispatched w; printed := printed w ++ [v];
               warnings := warnings w; ticks := ticks w |}).

(** [_logger.warning(msg)]. *)
Definition warning (msg : string) : M unit :=
  fun w => (Returned tt,
            {| self := self w; wire := wire w; slept := slept w;
               dispatched := dispatched w; printed := printed w;
               warnings := warnings w ++ [msg]; ticks := ticks w |}).

(** [async with self._session_lock: body].  Acquiring a held lock suspends
    the task; the lock is released when the body returns or raises. *)
Definition with_lock {A} (body : M A) : M A :=
  fun w =>
    if _session_lock (self w) then (Suspended, w)
    else
      match body (with_self (set_lock true) w) with
      | (Returned a, w') => (Returned a, with_self (set_lock false) w')
      | (Raised e, w') => (Raised e, with_self (set_lock false) w')
      | r => r
      end.

(** ** Python expressions on decoded values *)

(** Truth value of an [Optional[str]]: [None] and the empty string are false. *)
Definition truthy (o : option string) : bool :=
  match o with
  | Some s => negb (String.eqb s "")
  | None => false
  end.

(** [v[key]] for a string key. *)
Definition getitem (v : json) (key : string) : Exn + json :=
  match v with
  | JObj fields =>
      match fields !! key with
      | Some x => inr x
      | None => inl (PyError KeyError)
      end
  | _ => inl (PyError TypeError)
  end.

(** A [str] is held as its UTF-8 bytes: a character is a byte that is no
    continuation byte ([10xxxxxx]) together with the continuation bytes that
    follow it. *)
Definition continuation (c : Ascii.ascii) : bool :=
  let n := Ascii.N_of_ascii c in ((128 <=? n) && (n <? 192))%N.

(** The number of characters of a [str]. *)
Fixpoint characters (s : string) : nat :=
  match s with
  | EmptyString => O
  | String c rest => ((if continuation c then 0 else 1) + characters rest)%nat
  end.

(** The continuation bytes a [str] starts with. *)
Fixpoint continuations (s : string) : string :=
  match s with
  | String c rest => if continuation c then String c (continuations rest) else EmptyString
  | EmptyString => EmptyString
  end.

(** [v[0]]. *)
Definition getitem0 (v : json) : Exn + json :=
  match v with
  | JList (x :: _) => inr x
  | JList [] => inl (PyError IndexError)
  | JStr (String c rest) => inr (JStr (String c (continuations rest)))
  | JStr EmptyString => inl (PyError IndexError)
  | JObj _ => inl (PyError KeyError)     (* keys are strings, [0] is none of them *)
  | _ => inl (PyError TypeError)
  end.

(** [len(v)]. *)
Definition len (v : json) : Exn + Z :=
  match v with
  | JList items => inr (Z.of_nat (length items))
  | JStr s => inr (Z.of_nat (characters s))
  | JObj fields => inr (Z.of_nat (size fields))
  | _ => inl (PyError TypeError)
  end.

(** [v] used as a number: [int], and [bool] as 0 or 1. *)
Definition as_int (v : json) : Exn + Z :=
  match v with
  | JNum n => inr n
  | JBool b => inr (if b then 1 else 0)
  | _ => inl (PyError TypeError)
  end.

(** [v == 0]. *)
Definition eq_zero (v : json) : bool :=
  match v with
  | JNum n => n =? 0
  | JBool b => negb b
  | _ => false
  end.

(** [range(lo, hi)]. *)
Definition range (lo hi : Z) : list Z := seqZ lo (hi - lo).

(** A [SubscriptionPayload] (its [TypedDict] is not among the sources): the
    two keys [subscribe] reads, both strings. *)
Record SubscriptionPayload : Type := { name : string; version : string }.

(** ** HTTPClient *)

Definition validate_url : string := "https://id.twitch.tv/oauth2/validate".
Definition token_url : string := "https://id.twitch.tv/oauth2/token".

Section Client.

Variable env : Env.

(** [time()]. *)
Definition time : M Z :=
  fun w => (Returned (clock env (ticks w)),
            {| self := self w; wire := wire w; slept := slept w;
               dispatched := dispatched w; printed := printed w;
               warnings := warnings w; ticks := S (ticks w) |}).

(** [is_open]. *)
Definition is_open (c : HTTPClient) : bool :=
  match __session c with
  | Some s => negb (closed s)
  | None => false
  end.

(** [_open(access_token=...)]. *)
Definition _open (access_token : string) : M unit :=
  with_lock
    (open <- gets is_open ;;
     if negb open then
       cid <- gets _client_id ;;
       let headers : gmap string string :=
         <["Content-Type" := "application/json"]>
           (<["Authorization" := "Bearer " +:+ access_token]>
              (<["Client-ID" := cid]> ∅)) in
       modify (set_session (Some {| headers := headers; closed := false |}))
     else ret tt).

(** [self.__session.request(method, url, **kwargs)] up to the response:
    no session is an [AttributeError], a closed one aiohttp's
    [RuntimeError]; otherwise the request goes on the wire and the network
    answers, or the transport fails with the exception of its failure. *)
Definition session_request (route : Route) (kwargs : Kwargs) : M (Z * json) :=
  fun w =>
    match __session (self w) with
    | None => (Raised (PyError AttributeError), w)
    | Some s =>
        if closed s then (Raised (PyError RuntimeError), w)
        else
          match net env (length (wire w)) with
          | Response status body => (Returned (status, body), transmit route kwargs s w)
          | TransportFailure => (Raised OSError, transmit route kwargs s w)
          | ServerDisconnected =>
              (Raised (PyError ServerDisconnectedError), transmit route kwargs s w)
          | TimedOut => (Raised (PyError TimeoutError), transmit route kwargs s w)
          end
    end.

(** The [if]/[elif] chain on [response.status] inside [_request]. *)
Definition on_response (status : Z) (body : json) : M json :=
  if bool_decide (status ∈ [200; 202]) then ret body
  else if status =? 400 then print body ;; raise BadRequest
  else if status =? 401 then raise (Unauthorized None)
  else if status =? 403 then raise (Forbidden None)
  else if status =? 404 then raise NotFound
  else if (500 <=? status) && (status <? 600) then raise TwitchServerError
  else raise UnknownError.

(** The [for retry_count in ...: try ... except OSError ... else: raise
    HTTPException] loop of [_request], over the remaining counts. *)
Fixpoint _request_for (counts : list Z) (route : Route) (kwargs : Kwargs) : M json :=
  match counts with
  | [] => raise HTTPException
  | retry_count :: rest =>
      try_except
        (response <- session_request route kwargs ;;
         let '(status, body) := response in
         on_response status body)
        (fun e =>
           match e with
           | OSError =>
               Some ((if 3 >=? retry_count then sleep (5 * retry_count) else ret tt) ;;
                     _request_for rest route kwargs)
           | _ => None
           end)
  end.

(** [_request(route=..., **kwargs)]. *)
Definition _request (route : Route) (kwargs : Kwargs) : M json :=
  _request_for (range 1 4) route kwargs.

(** [self.__session.headers.update({key: value})]. *)
Definition headers_update (key value : string) : M unit :=
  fun w =>
    match __session (self w) with
    | None => (Raised (PyError AttributeError), w)
    | Some s =>
        (Returned tt,
         with_self (set_session
                      (Some {| headers := <[key := value]> (headers s);
                               closed := closed s |})) w)
    end.

(** [request], [_validate_token] and [_generate_token] call one another;
    each [while True] round and each call takes one unit of fuel. *)
Fixpoint request (fuel : nat) (route : Route) (kwargs : Kwargs) : M json :=
  match fuel with
  | O => out_of_fuel
  | S fuel' =>
      try_except
        (_request route kwargs)
        (fun e =>
           match e with
           | Unauthorized _ =>
               Some (try_except
                       (_validate_token fuel' true ;; ret tt)
                       (fun e' =>
                          match e' with
                          | Unauthorized _ | BadRequest => Some (raise e')
                          | _ => None
                          end) ;;
                     request fuel' route kwargs)
           | _ => None
           end)
  end

with _validate_token (fuel : nat) (generate : bool) : M json :=
  match fuel with
  | O => out_of_fuel
  | S fuel' =>
      try_except
        (route <- lift (Route_init "GET" None (Some validate_url)) ;;
         _request route NoKwargs)
        (fun e =>
           match e with
           | Unauthorized _ =>
               Some (secret <- gets _client_secret ;;
                     token <- gets _refresh_token ;;
                     if generate && (truthy secret && truthy token) then
                       try_except
                         (_generate_token fuel' ;; ret tt)
                         (fun e' =>
                            match e' with
                            | BadRequest | Forbidden _ =>
                                Some (raise (Unauthorized
                                               (Some "Invalid refresh token or client secret.")))
                            | _ => None
                            end) ;;
                       _validate_token fuel' generate
                     else raise e)
           | _ => None
           end)
  end

with _generate_token (fuel : nat) : M (option json) :=
  match fuel with
  | O => out_of_fuel
  | S fuel' =>
      token <- gets _refresh_token ;;
      secret <- gets _client_secret ;;
      match token, secret with
      | Some refresh_token, Some client_secret =>
          if truthy token && truthy secret then
            locked <- gets _session_lock ;;
            if negb locked then
              with_lock
                (let encoded_secret := quote env refresh_token in
                 client_id <- gets _client_id ;;
                 let params := [("grant_type", "refresh_token");
                                ("refresh_token", encoded_secret);
                                ("client_id", client_id);
                                ("client_secret", client_secret)] in
                 route <- lift (Route_init "POST" None (Some token_url)) ;;
                 refresh <- request fuel' route (Params params) ;;
                 access_token <- lift (getitem refresh "access_token") ;;
                 headers_update "Authorization" ("Bearer " +:+ str env access_token) ;;
                 access_token <- lift (getitem refresh "access_token") ;;
                 _dispatch "refresh_token" [access_token] ;;
                 ret (Some refresh))
            else ret None
          else ret None
      | _, _ => ret None
      end
  end.

(** [open_session(token, refresh_token)]. *)
Definition open_session (fuel : nat) (token : string) (refresh_token : option string)
  : M json :=
  _open token ;;
  modify (set_refresh_token refresh_token) ;;
  validation <- _validate_token fuel true ;;
  expires_in <- lift (getitem validation "expires_in") ;;
  (if eq_zero expires_in then
     stored <- gets _refresh_token ;;
     if bool_decide (stored <> None) then
       warning ("The refresh token has been removed due to the access token returning an"
                +:+ " expire time of 0.")
     else ret tt
   else modify (set_refresh_token refresh_token)) ;;
  ret validation.

(** The [while True] loop of [Refresher], for [rounds] rounds.  The value
    bound to [expires_in] is whatever the last validation held under that
    key; it is used as a number at the top of the next round.
    [start_time = time()] is the first statement of the guarded branch inside
    the [try] and cannot raise, so it is read before the [try] here: the
    handler then sees the assignment, as in Python. *)
Fixpoint Refresher_while (rounds fuel : nat) (start_time : Z) (expires_in : json)
  : M unit :=
  match rounds with
  | O => out_of_fuel
  | S rounds' =>
      seconds <- lift (as_int expires_in) ;;
      sleep (Z.min (seconds - 300) 3540) ;;
      current_time <- time ;;
      let elapsed_time := current_time - start_time in
      let due := elapsed_time >=? seconds - 300 in
      start_time <- (if due then time else ret start_time) ;;
      expires_in <-
        try_except
          ((if due then _generate_token fuel ;; ret tt else ret tt) ;;
           validation <- _validate_token fuel false ;;
           lift (getitem validation "expires_in"))
          (fun e =>
             match e with
             | BadRequest =>
                 Some (warning ("Invalid Refresh Token."
                                +:+ " The automatic generation feature has been disabled.") ;;
                       modify (set_refresh_token None) ;;
                       ret expires_in)
             | _ => None
             end) ;;
      Refresher_while rounds' fuel start_time expires_in
  end.

(** [Refresher(expires_in=...)].  [format_seconds] only feeds debug
    messages and is taken to return for every integer. *)
Definition Refresher (rounds fuel : nat) (expires_in : Z) : M unit :=
  start_time <- time ;;
  token <- gets _refresh_token ;;
  secret <- gets _client_secret ;;
  let expires_in := if truthy token && truthy secret then expires_in else 3540 + 300 in
  Refresher_while rounds fuel start_time (JNum expires_in).

(** The JSON document [subscribe] posts for one subscription. *)
Definition subscription_data (user_id session_id : string)
           (subscription : SubscriptionPayload) : json :=
  JObj (list_to_map
          [("type", JStr (name subscription));
           ("version", JStr (version subscription));
           ("condition",
             JObj (list_to_map
                     [("user_id", JStr user_id);
                      ("broadcaster_user_id", JStr user_id);
                      ("moderator_user_id", JStr user_id);
                      ("to_broadcaster_user_id", JStr user_id)]));
           ("transport",
             JObj (list_to_map
                     [("method", JStr "websocket");
                      ("session_id", JStr session_id)]))]).

(** The [for subscription in subscriptions] loop of [subscribe]. *)
Fixpoint subscribe_for (fuel : nat) (user_id session_id : string)
         (subscriptions : list SubscriptionPayload) : M unit :=
  match subscriptions with
  | [] => ret tt
  | subscription :: rest =>
      try_except
        (let data := subscription_data user_id session_id subscription in
         route <- lift (Route_init "POST" (Some "eventsub/subscriptions") None) ;;
         request fuel route (JsonBody data) ;;
         ret tt)
        (fun e =>
           match e with
           | Forbidden _ =>
               Some (raise (Forbidden
                              (Some ("Subscription `" +:+ name subscription
                                     +:+ "` is missing proper authorization"))))
           | BadRequest =>
               Some (raise (SubscriptionError (name subscription) (version subscription)))
           | _ => None
           end) ;;
      subscribe_for fuel user_id session_id rest
  end.

(** [subscribe(user_id=..., session_id=..., subscriptions=...)]. *)
Definition subscribe (fuel : nat) (user_id session_id : string)
           (subscriptions : list SubscriptionPayload) : M unit :=
  subscribe_for fuel user_id session_id subscriptions ;;
  _dispatch "ready" [].

(** [get_client()]. *)
Definition get_client (fuel : nat) : M json :=
  route <- lift (Route_init "GET" (Some "users") None) ;;
  data <- request fuel route NoKwargs ;;
  items <- lift (getitem data "data") ;;
  lift (getitem0 items).

(** [get_channel(broadcaster_id)]. *)
Definition get_channel (fuel : nat) (broadcaster_id : string) : M json :=
  _route <- lift (Route_init "GET" (Some ("channels?broadcaster_id=" +:+ broadcaster_id))
                             None) ;;
  data <- request fuel _route NoKwargs ;;
  items <- lift (getitem data "data") ;;
  lift (getitem0 items).

(** [get_stream(user_id)]: the [try] either returns the stream or falls
    through to the final [return None]. *)
Definition get_stream (fuel : nat) (user_id : string) : M (option json) :=
  try_except
    (_route <- lift (Route_init "GET" (Some ("streams?user_id=" +:+ user_id)) None) ;;
     data <- request fuel _route NoKwargs ;;
     items <- lift (getitem data "data") ;;
     count <- lift (len items) ;;
     if count =? 1 then
       items <- lift (getitem data "data") ;;
       stream <- lift (getitem0 items) ;;
       ret (Some stream)
     else ret None)
    (fun e =>
       match e with
       | NotFound => Some (ret None)
       | _ => None
       end).

End Client.

(** ** The rest of the session manager *)

(** [HTTPClient.__init__(dispatcher, client, secret)]: no session yet, a free
    lock, no refresh token.  ([_user_agent] only feeds [ws_connect]; the
    dispatcher is the [dispatched] trace.) *)
Definition HTTPClient_init (client : string) (secret : option string) : HTTPClient :=
  {| _client_id := client; _client_secret := secret; _refresh_token := None;
     __session := None; _session_lock := false |}.

(** [close()]: under the lock, an open session is closed and dropped; the
    result is [not self.is_open]. *)
Definition close : M bool :=
  with_lock
    (open <- gets is_open ;;
     if open then modify (set_session None) else ret tt) ;;
  open <- gets is_open ;;
  ret (negb open).

(** * The device authorization flow ([twitch/ext/oauth/oauth.py]) *)

Module DeviceAuthFlow.

Section Flow.

(** The HTTP client of the extension ([twitch/ext/oauth/http.py]) is not
    among the sources.  Its object holds the [loop] attribute that the flow
    reads and sets; the rest of its state is [H], and its methods are taken
    as they come: each may read and change the object and ends with a result
    or an exception.  It is built from the client id alone, so it has no way
    to the owning client. *)
Variables (Loop H : Type).

Record Http : Type := { loop : option Loop; inner : H }.

Record Provider : Type :=
  { get_running_loop : Loop;     (* [asyncio.get_running_loop()] *)
    start_device_auth_flow : list string -> Http -> (Exn + json) * Http;
    poll_for_token : json -> json -> json -> Http -> (Exn + json) * Http;
    revoke_token_request : string -> Http -> (Exn + unit) * Http;
    http_close : Http -> (Exn + unit) * Http }.

(** A [DeviceAuthFlow] with what it reaches of its client: the two loops it
    sets and the notifications it dispatches. *)
Record Flow : Type :=
  { _http : Http;
    scopes : list string;
    client_loop : option Loop;         (* [self._client.loop] *)
    client_http_loop : option Loop;    (* [self._client.http.loop] *)
    client_dispatched : list (string * list json) }.

Variable provider : Provider.

Definition set_http (h : Http) (w : Flow) : Flow :=
  {| _http := h; scopes := scopes w; client_loop := client_loop w;
     client_http_loop := client_http_loop w; client_dispatched := client_dispatched w |}.

(** [self._client.dispatch(name, *args)]. *)
Definition dispatch (name : string) (args : list json) (w : Flow) : Flow :=
  {| _http := _http w; scopes := scopes w; client_loop := client_loop w;
     client_http_loop := client_http_loop w;
     client_dispatched := client_dispatched w ++ [(name, args)] |}.

(** The part of [_set_event_loops] that runs before the decorated method. *)
Definition ensure_event_loops (w : Flow) : Flow :=
  match loop (_http w) with
  | None =>
      let running := get_running_loop provider in
      {| _http := {| loop := Some running; inner := inner (_http w) |};
         scopes := scopes w;
         client_loop := Some running;
         client_http_loop := Some running;
         client_dispatched := client_dispatched w |}
  | Some _ => w
  end.

(** [get_device_code()], decorator included. *)
Definition get_device_code (w : Flow) : (Exn + (json * json * json * json)) * Flow :=
  let w := ensure_event_loops w in
  match start_device_auth_flow provider (scopes w) (_http w) with
  | (inl e, h) => (inl e, set_http h w)
  | (inr data, h) =>
      let w := set_http h w in
      match getitem data "user_code" with
      | inl e => (inl e, w)
      | inr code =>
          let w := dispatch "code" [code] w in
          match getitem data "user_code" with
          | inl e => (inl e, w)
          | inr user_code =>
              match getitem data "device_code" with
              | inl e => (inl e, w)
              | inr device_code =>
                  match getitem data "expires_in" with
                  | inl e => (inl e, w)
                  | inr expires_in =>
                      match getitem data "interval" with
                      | inl e => (inl e, w)
                      | inr interval =>
                          (inr (user_code, device_code, expires_in, interval), w)
                      end
                  end
              end
          end
      end
  end.

(** [revoke_token(token)], decorator included. *)
Definition revoke_token (token : string) (w : Flow) : (Exn + unit) * Flow :=
  let w := ensure_event_loops w in
  let '(r, h) := revoke_token_request provider token (_http w) in
  (r, set_http h w).

(** [poll_for_authorization(device_code, expires_in, interval)], decorator
    included. *)
Definition poll_for_authorization (device_code expires_in interval : json) (w : Flow)
  : (Exn + (json * json)) * Flow :=
  let w := ensure_event_loops w in
  match poll_for_token provider device_code expires_in interval (_http w) with
  | (inl e, h) => (inl e, set_http h w)
  | (inr data, h) =>
      let w := set_http h w in
      match getitem data "access_token" with
      | inl e => (inl e, w)
      | inr access =>
          match getitem data "refresh_token" with
          | inl e => (inl e, w)
          | inr refresh =>
              let w := dispatch "auth" [access; refresh] w in
              match getitem data "access_token" with
              | inl e => (inl e, w)
              | inr access_token =>
                  match getitem data "refresh_token" with
                  | inl e => (inl e, w)
                  | inr refresh_token => (inr (access_token, refresh_token), w)
                  end
              end
          end
      end
  end.

(** [close()]. *)
Definition close (w : Flow) : (Exn + unit) * Flow :=
  let '(r, h) := http_close provider (_http w) in
  (r, set_http h w).

(** The first [async with self:] block of [runner] in [run]: the device code,
    then the polling with what the device code gave; [__aexit__] closes the
    flow however the block ends, and an exception of [close] takes the place
    of the block's own. *)
Definition runner_authorize (w : Flow) : (Exn + (json * json)) * Flow :=
  let '(block, w) :=
    match get_device_code w with
    | (inl e, w) => (inl e, w)
    | (inr (user_code, device_code, expires_in, interval), w) =>
        poll_for_authorization device_code expires_in interval w
    end in
  match close w with
  | (inl e, w) => (inl e, w)
  | (inr _, w) => (block, w)
  end.

End Flow.

End DeviceAuthFlow.

(** * Vocabulary of the statements *)

(** ** Routes and worlds the statements name *)

Definition validate_route : Route := {| method := "GET"; url := validate_url |}.

Definition token_route : Route := {| method := "POST"; url := token_url |}.

Definition subscriptions_route : Route :=
  {| method := "POST"; url := BASE_ROUTE +:+ "eventsub/subscriptions" |}.

Definition users_route : Route := {| method := "GET"; url := BASE_ROUTE +:+ "users" |}.

Definition channels_route (broadcaster_id : string) : Route :=
  {| method := "GET"; url := BASE_ROUTE +:+ ("channels?broadcaster_id=" +:+ broadcaster_id) |}.

Definition streams_route (user_id : string) : Route :=
  {| method := "GET"; url := BASE_ROUTE +:+ ("streams?user_id=" +:+ user_id) |}.

(** The parameters of the refresh-token grant. *)
Definition token_params (env : Env) (c : HTTPClient) (refresh_token client_secret : string)
  : Kwargs :=
  Params [("grant_type", "refresh_token");
          ("refresh_token", quote env refresh_token);
          ("client_id", _client_id c);
          ("client_secret", client_secret)].

(** What [_validate_token] raises when the refresh is rejected. *)
Definition invalid_refresh : Exn :=
  Unauthorized (Some "Invalid refresh token or client secret.").

(** The [ready] notification. *)
Definition ready : string * list json := ("ready", []).

(** The exception of a failure of the transport that is no [OSError]. *)
Definition interruption (reply : Reply) : option Builtin :=
  match reply with
  | ServerDisconnected => Some ServerDisconnectedError
  | TimedOut => Some TimeoutError
  | Response _ _ | TransportFailure => None
  end.

(** The world after the [k]-th failed attempt of [_request], counted from 1:
    the request is on the wire once more and the loop has slept [5 * k]. *)
Definition after_failure (route : Route) (kwargs : Kwargs) (s : ClientSession)
           (k : Z) (w : World) : World :=
  snd (sleep (5 * k) (transmit route kwargs s w)).

(** The world after the first [k] attempts have failed. *)
Fixpoint after_failures (route : Route) (kwargs : Kwargs) (s : ClientSession)
         (k : nat) (w : World) : World :=
  match k with
  | O => w
  | S k' => after_failure route kwargs s (Z.of_nat k) (after_failures route kwargs s k' w)
  end.

(** The world once a refresh has gone through: the new bearer token is in the
    session's headers, the owner has been notified, the lock is free again. *)
Definition refreshed (env : Env) (access_token : json) (s : ClientSession) (w : World)
  : World :=
  with_self (set_lock false)
    (snd (_dispatch "refresh_token" [access_token]
            (with_self
               (set_session
                  (Some {| headers := <["Authorization" := "Bearer " +:+ str env access_token]>
                                        (headers s);
                           closed := closed s |}))
               w))).

(** The session [_open] builds for a client id and an access token. *)
Definition new_session (client_id access_token : string) : ClientSession :=
  {| headers := <["Content-Type" := "application/json"]>
                  (<["Authorization" := "Bearer " +:+ access_token]>
                     (<["Client-ID" := client_id]> ∅));
     closed := false |}.

(** The warning of [open_session]. *)
Definition removed_warning : string :=
  "The refresh token has been removed due to the access token returning an"
  +:+ " expire time of 0.".

(** The warning of [Refresher]. *)
Definition disabled_warning : string :=
  "Invalid Refresh Token." +:+ " The automatic generation feature has been disabled.".

(** The [Authorization] header the session sends. *)
Definition authorization (w : World) : option string :=
  match __session (self w) with
  | Some s => headers s !! "Authorization"
  | None => None
  end.

(** Whether the client has what a refresh needs. *)
Definition refreshable (c : HTTPClient) : bool :=
  truthy (_refresh_token c) && truthy (_client_secret c).

(** A request to the validation endpoint. *)
Definition validation_request (x : Sent) : Prop :=
  sent_method x = "GET" /\ sent_url x = validate_url.

(** The sleeps of [rounds] rounds of the refresh loop that starts with
    [expires_in] and whose [k]-th validation reports [reported k]. *)
Fixpoint naps (rounds : nat) (expires_in : Z) (reported : nat -> Z) : list Z :=
  match rounds with
  | O => []
  | S rounds' =>
      Z.min (expires_in - 300) 3540 :: naps rounds' (reported O) (fun k => reported (S k))
  end.

(** ** Relations between a world and a later one *)

(** [preserves R m]: running [m] from any world leads to an [R]-related
    world, however [m] ends. *)
Definition preserves (R : relation World) {A} (m : M A) : Prop :=
  forall w, R w (snd (m w)).

(** [extends m m']: whatever [m] does without running out of fuel, [m'] does
    too. *)
Definition extends {A} (m m' : M A) : Prop :=
  forall w o w', m w = (o, w') -> o <> OutOfFuel -> m' w = (o, w').

(** [sending route kwargs w w']: between [w] and [w'] the client object, the
    notifications, the warnings and the clock are untouched, the wire has
    only grown by requests for [route] with [kwargs], and the sleeps so far
    are still there. *)
Record sending (route : Route) (kwargs : Kwargs) (w w' : World) : Prop :=
  { sending_self : self w' = self w;
    sending_dispatched : dispatched w' = dispatched w;
    sending_warnings : warnings w' = warnings w;
    sending_ticks : ticks w' = ticks w;
    sending_slept : exists l, slept w' = slept w ++ l;
    sending_wire :
      exists l, wire w' = wire w ++ l
                /\ Forall (fun x => sent_method x = method route
                                    /\ sent_url x = url route
                                    /\ sent_kwargs x = kwargs) l }.

(** [steady w w']: the credentials and the client id are the same, an
    existing session is still there (open or closed as before), the wire has
    only grown, the only notifications added are [refresh_token] ones, and
    no warning was logged. *)
Record steady (w w' : World) : Prop :=
  { steady_client_id : _client_id (self w') = _client_id (self w);
    steady_secret : _client_secret (self w') = _client_secret (self w);
    steady_token : _refresh_token (self w') = _refresh_token (self w);
    steady_session :
      forall s, __session (self w) = Some s ->
                exists s', __session (self w') = Some s' /\ closed s' = closed s;
    steady_wire : exists l, wire w' = wire w ++ l;
    steady_dispatched :
      exists l, dispatched w' = dispatched w ++ l
                /\ Forall (fun d => fst d = "refresh_token") l;
    steady_warnings : warnings w' = warnings w }.

(** [quiet w w']: still nothing to refresh with in [w'], and between [w] and
    [w'] only validation requests were sent and sleeps added. *)
Record quiet (w w' : World) : Prop :=
  { quiet_credentials : refreshable (self w') = false;
    quiet_wire : exists l, wire w' = wire w ++ l /\ Forall validation_request l;
    quiet_slept : exists l, slept w' = slept w ++ l }.

(** [calm w w']: [quiet], provided there was nothing to refresh with in [w]. *)
Definition calm (w w' : World) : Prop := refreshable (self w) = false -> quiet w w'.

(** An outcome that is a result or an exception: the call has ended. *)
Definition finished {A} (o : Outcome A) : Prop :=
  match o with
  | Returned _ | Raised _ => True
  | Suspended | OutOfFuel => False
  end.

(** [relocks m]: when [m] ends, the session lock is as [m] found it. *)
Definition relocks {A} (m : M A) : Prop :=
  forall w o w', m w = (o, w') -> finished o ->
                 _session_lock (self w') = _session_lock (self w).

(** [traces_grow w w']: the requests, the notifications and the warnings of
    [w] are the first ones of [w']. *)
Record traces_grow (w w' : World) : Prop :=
  { wire_grows : exists l, wire w' = wire w ++ l;
    dispatched_grows : exists l, dispatched w' = dispatched w ++ l;
    warnings_grow : exists l, warnings w' = warnings w ++ l }.

(** ** Sample data for the closed examples *)

Definition sample_session : ClientSession :=
  {| headers := {["Authorization" := "Bearer old"]}; closed := false |}.

Definition sample_client : HTTPClient :=
  {| _client_id := "client"; _client_secret := Some "secret";
     _refresh_token := Some "refresh"; __session := Some sample_session;
     _session_lock := false |}.

Definition sample_world : World :=
  {| self := sample_client; wire := []; slept := []; dispatched := [];
     printed := []; warnings := []; ticks := 0 |}.

(** A client that was given neither a refresh token nor a client secret. *)
Definition bare_world : World :=
  with_self (fun c => {| _client_id := _client_id c; _client_secret := None;
                         _refresh_token := None; __session := __session c;
                         _session_lock := _session_lock c |}) sample_world.

(** A client that has not opened its session yet. *)
Definition closed_world : World := with_self (set_session None) sample_world.

Definition sample_str (v : json) : string :=
  match v with
  | JStr s => s
  | _ => ""
  end.

(** A network that answers with [replies] in turn and then fails. *)
Definition scripted (replies : list Reply) : Env :=
  {| net := fun k => nth k replies TransportFailure;
     clock := fun k => 4000 * Z.of_nat k;
     str := sample_str;
     quote := fun s => s |}.

Definition obj (fields : list (string * json)) : json := JObj (list_to_map fields).

Definition sample_route : Route := users_route.

Definition sample_batch : list SubscriptionPayload :=
  [{| name := "channel.follow"; version := "2" |};
   {| name := "channel.cheer"; version := "1" |};
   {| name := "channel.raid"; version := "1" |}].

(** A network that answers every request with the same reply. *)
Definition answering (reply : Reply) : Env :=
  {| net := fun _ => reply;
     clock := fun k => 4000 * Z.of_nat k;
     str := sample_str;
     quote := fun s => s |}.

(** A client fresh from [__init__]. *)
Definition fresh_world : World :=
  {| self := HTTPClient_init "client" (Some "secret"); wire := []; slept := [];
     dispatched := []; printed := []; warnings := []; ticks := 0 |}.

(** A stand-in for the extension's HTTP client: it counts its calls and
    answers the device request with [device] and the polling with [token]. *)
Definition sample_provider (device token : Exn + json) : DeviceAuthFlow.Provider unit nat :=
  let bump (h : DeviceAuthFlow.Http unit nat) : DeviceAuthFlow.Http unit nat :=
    {| DeviceAuthFlow.loop := DeviceAuthFlow.loop _ _ h;
       DeviceAuthFlow.inner := S (DeviceAuthFlow.inner _ _ h) |} in
  {| DeviceAuthFlow.get_running_loop := tt;
     DeviceAuthFlow.start_device_auth_flow := fun _ h => (device, bump h);
     DeviceAuthFlow.poll_for_token := fun _ _ _ h => (token, bump h);
     DeviceAuthFlow.revoke_token_request := fun _ h => (inr tt, bump h);
     DeviceAuthFlow.http_close := fun h => (inr tt, bump h) |}.

(** A flow that has not been used yet. *)
Definition sample_flow : DeviceAuthFlow.Flow unit nat :=
  {| DeviceAuthFlow._http := {| DeviceAuthFlow.loop := None; DeviceAuthFlow.inner := O |};
     DeviceAuthFlow.scopes := ["user:read:email"];
     DeviceAuthFlow.client_loop := None;
     DeviceAuthFlow.client_http_loop := None;
     DeviceAuthFlow.client_dispatched := [] |}.

(** ** Statements the code does not meet *)

(** Every subscription of the batch is submitted, whatever happens to the
    others. *)
Definition siblings_attempted (env : Env) (fuel : nat) (user_id session_id : string)
           (subscriptions : list SubscriptionPayload) (w : World) : Prop :=
  (length (wire w) + length subscriptions
   <= length (wire (snd (subscribe env fuel user_id session_id subscriptions w))))%nat.

(** [ready] is dispatched however the submissions end. *)
Definition ready_dispatched (env : Env) (fuel : nat) (user_id session_id : string)
           (subscriptions : list SubscriptionPayload) (w : World) : Prop :=
  ready ∈ dispatched (snd (subscribe env fuel user_id session_id subscriptions w)).


(** The body of a response answered 400 reaches the caller: what the caller
    gets from [_request] tells which body it was. *)
Definition bad_request_surfaces_body (route : Route) (kwargs : Kwargs) (w : World) : Prop :=
  exists recover : Outcome json -> json,
    forall env body,
      net env (length (wire w)) = Response 400 body ->
      recover (fst (_request env route kwargs w)) = body.

(** The loop only ever sleeps the interval derived from 3540 + 300. *)
Definition fixed_cadence (env : Env) (rounds fuel : nat) (expires_in : Z) (w : World)
  : Prop :=
  exists l, slept (snd (Refresher env rounds fuel expires_in w)) = slept w ++ l
            /\ Forall (fun d => d = Z.min (3540 + 300 - 300) 3540) l.

(** * Properties *)

(** ** The request pipeline: one request, its classification, its retries *)

Section Pipeline.

Variable env : Env.
Variables (route : Route) (kwargs : Kwargs).

Lemma session_request_live w s :
  __session (self w) = Some s -> closed s = false ->
  session_request env route kwargs w =
    match net env (length (wire w)) with
    | Response status body => (Returned (status, body), transmit route kwargs s w)
    | TransportFailure => (Raised OSError, transmit route kwargs s w)
    | ServerDisconnected =>
        (Raised (PyError ServerDisconnectedError), transmit route kwargs s w)
    | TimedOut => (Raised (PyError TimeoutError), transmit route kwargs s w)
    end.
Proof. intros Hs Hc. unfold session_request. now rewrite Hs, Hc. Qed.

Lemma success_status (status : Z) :
  status ∈ [200; 202] <-> status = 200 \/ status = 202.
Proof. rewrite !elem_of_cons, elem_of_nil. tauto. Qed.

(** The status chain raises taxonomy errors only. *)
Lemma on_response_outcome status body w :
  exists o, on_response status body w = (o, if status =? 400 then snd (print body w) else w)
            /\ match o with
               | Returned b => b = body
               | Raised e => typed e = true /\ e <> HTTPException
               | _ => False
               end.
Proof.
  unfold on_response.
  case_bool_decide as Hin.
  - exists (Returned body). split; [|reflexivity].
    assert ((status =? 400) = false) as ->; [|reflexivity].
    apply success_status in Hin. lia.
  - destruct (status =? 400) eqn:E400; [eexists; split; [reflexivity|easy]|].
    destruct (status =? 401); [eexists; split; [reflexivity|easy]|].
    destruct (status =? 403); [eexists; split; [reflexivity|easy]|].
    destruct (status =? 404); [eexists; split; [reflexivity|easy]|].
    destruct ((500 <=? status) && (status <? 600)); eexists; (split; [reflexivity|easy]).
Qed.

Lemma on_response_not_OSError status body w w' :
  on_response status body w <> (Raised OSError, w').
Proof.
  destruct (on_response_outcome status body w) as (o & -> & Ho).
  intros [= -> _]. now destruct Ho.
Qed.

(** An attempt that gets a response ends the loop with its classification. *)
Lemma _request_for_response count rest w s status body :
  __session (self w) = Some s -> closed s = false ->
  net env (length (wire w)) = Response status body ->
  _request_for env (count :: rest) route kwargs w =
    on_response status body (transmit route kwargs s w).
Proof.
  intros Hs Hc Hnet. cbn [_request_for]. unfold try_except, bind.
  rewrite (session_request_live w s Hs Hc), Hnet.
  destruct (on_response status body (transmit route kwargs s w)) as [o w'] eqn:E.
  destruct o as [b|e| |]; try reflexivity.
  destruct e; try reflexivity.
  now apply on_response_not_OSError in E.
Qed.

(** An attempt that fails with [OSError] sleeps and goes on with the
    remaining counts. *)
Lemma _request_for_failure count rest w s :
  __session (self w) = Some s -> closed s = false ->
  net env (length (wire w)) = TransportFailure ->
  _request_for env (count :: rest) route kwargs w =
    _request_for env rest route kwargs
      (if 3 >=? count
       then snd (sleep (5 * count) (transmit route kwargs s w))
       else transmit route kwargs s w).
Proof.
  intros Hs Hc Hnet. cbn [_request_for]. unfold try_except, bind at 1.
  rewrite (session_request_live w s Hs Hc), Hnet.
  unfold bind. now destruct (3 >=? count).
Qed.

(** An attempt that fails in the transport with another exception than
    [OSError] is the last one: the exception leaves the loop. *)
Lemma _request_for_interrupted count rest w s kind :
  __session (self w) = Some s -> closed s = false ->
  interruption (net env (length (wire w))) = Some kind ->
  _request_for env (count :: rest) route kwargs w
  = (Raised (PyError kind), transmit route kwargs s w).
Proof.
  intros Hs Hc Hnet. cbn [_request_for]. unfold try_except, bind.
  rewrite (session_request_live w s Hs Hc).
  destruct (net env (length (wire w))); try discriminate Hnet;
    now injection Hnet as <-.
Qed.

Lemma _request_response w s status body :
  __session (self w) = Some s -> closed s = false ->
  net env (length (wire w)) = Response status body ->
  _request env route kwargs w = on_response status body (transmit route kwargs s w).
Proof. apply _request_for_response. Qed.

End Pipeline.

Lemma range_1_4 : range 1 4 = [1; 2; 3].
Proof. reflexivity. Qed.

Lemma wire_transmit route kwargs s w :
  wire (transmit route kwargs s w) = wire w ++ [outgoing route kwargs s].
Proof. reflexivity. Qed.

Lemma length_wire_transmit route kwargs s w :
  length (wire (transmit route kwargs s w)) = S (length (wire w)).
Proof. rewrite wire_transmit, length_app. cbn. lia. Qed.

Lemma after_failure_length route kwargs s k w :
  length (wire (after_failure route kwargs s k w)) = S (length (wire w)).
Proof. apply length_wire_transmit. Qed.

Lemma after_failures_world route kwargs s k w :
  self (after_failures route kwargs s k w) = self w
  /\ length (wire (after_failures route kwargs s k w)) = (length (wire w) + k)%nat
  /\ printed (after_failures route kwargs s k w) = printed w.
Proof.
  induction k as [|k (IH1 & IH2 & IH3)]; [cbn; split; [|split]; [easy|lia|easy]|].
  cbn [after_failures]. rewrite after_failure_length, IH2.
  split; [exact IH1|]. split; [lia | exact IH3].
Qed.

(** The attempt that follows [k] attempts failed with [OSError], of the three
    there are. *)
Lemma _request_after_failures env route kwargs w s k :
  __session (self w) = Some s -> closed s = false ->
  (k < 3)%nat ->
  (forall j, (j < k)%nat -> net env (length (wire w) + j)%nat = TransportFailure) ->
  _request env route kwargs w
  = _request_for env (drop k [1; 2; 3]) route kwargs (after_failures route kwargs s k w).
Proof.
  intros Hs Hc Hk. unfold _request. rewrite range_1_4.
  induction k as [|k IH]; intros Hfail; [reflexivity|].
  rewrite IH by (lia || (intros j Hj; apply Hfail; lia)).
  destruct (after_failures_world route kwargs s k w) as (Hself & Hlen & _).
  assert (Hnet : net env (length (wire (after_failures route kwargs s k w)))
                 = TransportFailure) by (rewrite Hlen; apply Hfail; lia).
  destruct k as [|[|k]]; [| |lia]; cbn [drop];
    now rewrite (_request_for_failure env route kwargs _ _ _ s) by (rewrite ?Hself; assumption).
Qed.

(** C3 (as amended).  Every response [_request] receives, at its first
    attempt or after one or two attempts that failed with [OSError], is
    classified by its status alone: the decoded body comes back exactly for
    200 and 202; 400 prints the body on standard output and raises a
    [BadRequest] that carries nothing; 401, 403, 404, 500-599 and everything
    else raise [Unauthorized], [Forbidden], [NotFound], [TwitchServerError]
    and [UnknownError]. *)
Theorem request_classifies_status env route kwargs w s k status body :
  __session (self w) = Some s -> closed s = false ->
  (k < 3)%nat ->
  (forall j, (j < k)%nat -> net env (length (wire w) + j)%nat = TransportFailure) ->
  net env (length (wire w) + k)%nat = Response status body ->
  let out := _request env route kwargs w in
  let w' := transmit route kwargs s (after_failures route kwargs s k w) in
  (status = 200 \/ status = 202 -> out = (Returned body, w'))
  /\ (status = 400 ->
      out = (Raised BadRequest, snd (print body w'))
      /\ printed (snd out) = printed w ++ [body])
  /\ (status = 401 -> out = (Raised (Unauthorized None), w'))
  /\ (status = 403 -> out = (Raised (Forbidden None), w'))
  /\ (status = 404 -> out = (Raised NotFound, w'))
  /\ (500 <= status < 600 -> out = (Raised TwitchServerError, w'))
  /\ (status <> 200 -> status <> 202 -> status <> 400 -> status <> 401 ->
      status <> 403 -> status <> 404 -> ~ 500 <= status < 600 ->
      out = (Raised UnknownError, w'))
  /\ ((exists b, fst out = Returned b) <-> status = 200 \/ status = 202).
Proof.
  intros Hs Hc Hk Hfail Hnet out w'. subst out w'.
  rewrite (_request_after_failures env route kwargs w s k Hs Hc Hk Hfail).
  destruct (after_failures_world route kwargs s k w) as (Hself & Hlen & Hprinted).
  set (wk := after_failures route kwargs s k w) in *.
  assert (Hdrop : exists count rest, drop k [1; 2; 3] = count :: rest).
  { destruct k as [|[|[|k]]]; [now eexists _, _ ..|lia]. }
  destruct Hdrop as (count & rest & ->).
  rewrite (_request_for_response env route kwargs count rest wk s status body)
    by (rewrite ?Hself, ?Hlen; assumption).
  clearbody wk. unfold on_response.
  split; [intros [-> | ->]; reflexivity|].
  split; [intros ->; split; [reflexivity|]; now rewrite <- Hprinted|].
  split; [now intros ->|].
  split; [now intros ->|].
  split; [now intros ->|].
  split; [|split; [|split]].
  - intros H.
    assert (bool_decide (status ∈ [200; 202]) = false) as ->
        by (apply bool_decide_eq_false; rewrite success_status; lia).
    assert ((status =? 400) = false) as -> by lia.
    assert ((status =? 401) = false) as -> by lia.
    assert ((status =? 403) = false) as -> by lia.
    assert ((status =? 404) = false) as -> by lia.
    assert ((500 <=? status) && (status <? 600) = true) as ->; [|reflexivity].
    apply andb_true_iff. lia.
  - intros H200 H202 H400 H401 H403 H404 H5xx.
    assert (bool_decide (status ∈ [200; 202]) = false) as ->
        by (apply bool_decide_eq_false; rewrite success_status; lia).
    assert ((status =? 400) = false) as -> by lia.
    assert ((status =? 401) = false) as -> by lia.
    assert ((status =? 403) = false) as -> by lia.
    assert ((status =? 404) = false) as -> by lia.
    assert ((500 <=? status) && (status <? 600) = false) as ->; [|reflexivity].
    apply andb_false_iff. lia.
  - intros [b Hb].
    destruct (on_response_outcome status body (transmit route kwargs s wk)) as (o & Ho & Hko).
    unfold on_response in Ho.
    case_bool_decide as Hin; [now apply success_status|].
    rewrite Ho in Hb. cbn in Hb. subst o. exfalso.
    revert Ho.
    destruct (status =? 400); [discriminate|].
    destruct (status =? 401); [discriminate|].
    destruct (status =? 403); [discriminate|].
    destruct (status =? 404); [discriminate|].
    destruct ((500 <=? status) && (status <? 600)); discriminate.
  - intros [-> | ->]; eexists; reflexivity.
Qed.

Lemma request_classifies_status_witness :
  let env := scripted [TransportFailure; Response 400 (JStr "bad")] in
  let out := _request env sample_route NoKwargs sample_world in
  (__session (self sample_world) = Some sample_session
   /\ closed sample_session = false
   /\ net env 0 = TransportFailure
   /\ net env 1 = Response 400 (JStr "bad"))
  /\ fst out = Raised BadRequest
  /\ printed (snd out) = [JStr "bad"]
  /\ length (wire (snd out)) = 2%nat.
Proof.
  intros env out. split; [now repeat split|].
  destruct (request_classifies_status env sample_route NoKwargs sample_world sample_session
              1 400 (JStr "bad") eq_refl eq_refl) as (_ & H400 & _).
  - lia.
  - intros j Hj. assert (j = O) as -> by lia. reflexivity.
  - reflexivity.
  - destruct (H400 eq_refl) as [Hout Hprinted]. fold out in Hout, Hprinted.
    rewrite Hout. split; [reflexivity|]. split; [exact Hprinted | reflexivity].
Defined.

(** C3 as stated fails: two different bodies answered with 400 leave the
    caller with the same bare [BadRequest]; the body is on standard output
    only. *)
Lemma bad_request_carries_no_body :
  ~ bad_request_surfaces_body sample_route NoKwargs sample_world.
Proof.
  intros [recover Hrecover].
  pose proof (Hrecover (answering (Response 400 (JStr "first"))) (JStr "first") eq_refl)
    as H1.
  pose proof (Hrecover (answering (Response 400 (JStr "second"))) (JStr "second") eq_refl)
    as H2.
  change (recover (Raised BadRequest) = JStr "first") in H1.
  change (recover (Raised BadRequest) = JStr "second") in H2.
  congruence.
Qed.

(** C5.  The retry loop falls short of its retries.  When three attempts
    fail with [OSError], the third failure is followed by its backoff of 15
    seconds and then by [HTTPException] at once: the request is not sent a
    fourth time, although the provider would have answered it, so there are
    two retries and the last backoff is not between two attempts.  And a
    server that disconnects is not retried at all: the one attempt ends
    [_request] with [ServerDisconnectedError], not with [HTTPException]. *)
Theorem third_backoff_has_no_retry :
  let answer := Response 200 (JStr "late") in
  let refused :=
    _request (scripted [TransportFailure; TransportFailure; TransportFailure; answer])
      sample_route NoKwargs sample_world in
  let dropped :=
    _request (scripted [ServerDisconnected; answer]) sample_route NoKwargs sample_world in
  (fst refused = Raised HTTPException
   /\ length (wire (snd refused)) = 3%nat
   /\ slept (snd refused) = [5; 10; 15])
  /\ (fst dropped = Raised (PyError ServerDisconnectedError)
      /\ length (wire (snd dropped)) = 1%nat
      /\ slept (snd dropped) = []).
Proof. intros answer refused dropped. vm_compute. now repeat split. Qed.

(** X21.  The retry loop as it runs: an attempt that fails with [OSError] is
    followed by a sleep of 5 seconds times its number, the third one too, and
    three such failures end in [HTTPException], which has no other cause; an
    attempt that gets a response is the last one, whatever its status, so a
    classified failure is not retried. *)
Theorem transport_failures_are_retried env route kwargs w s :
  __session (self w) = Some s -> closed s = false ->
  let n := length (wire w) in
  let sent := outgoing route kwargs s in
  let out := _request env route kwargs w in
  (net env n = TransportFailure -> net env (S n) = TransportFailure ->
   net env (S (S n)) = TransportFailure ->
   fst out = Raised HTTPException
   /\ wire (snd out) = wire w ++ [sent; sent; sent]
   /\ slept (snd out) = slept w ++ [5; 10; 15])
  /\ (fst out = Raised HTTPException ->
      net env n = TransportFailure /\ net env (S n) = TransportFailure
      /\ net env (S (S n)) = TransportFailure)
  /\ (forall (k : nat) status body,
         (k < 3)%nat ->
         (forall j, (j < k)%nat -> net env (n + j)%nat = TransportFailure) ->
         net env (n + k)%nat = Response status body ->
         wire (snd out) = wire w ++ replicate (S k) sent
         /\ slept (snd out) = slept w ++ ((fun i => 5 * i) <$> seqZ 1 (Z.of_nat k))
         /\ (status <> 200 -> status <> 202 ->
             exists e, fst out = Raised e /\ typed e = true /\ e <> HTTPException)).
Proof.
  intros Hs Hc n sent out.
  pose (w1 := after_failure route kwargs s 1 w).
  pose (w2 := after_failure route kwargs s 2 w1).
  pose (w3 := after_failure route kwargs s 3 w2).
  assert (Hl1 : length (wire w1) = S n) by apply after_failure_length.
  assert (Hl2 : length (wire w2) = S (S n))
    by (unfold w2; now rewrite after_failure_length, Hl1).
  assert (F1 : net env n = TransportFailure ->
               out = _request_for env [2; 3] route kwargs w1).
  { intros H. subst out. unfold _request. rewrite range_1_4.
    now rewrite (_request_for_failure env route kwargs 1 _ w s Hs Hc H). }
  assert (F2 : net env (S n) = TransportFailure ->
               _request_for env [2; 3] route kwargs w1
               = _request_for env [3] route kwargs w2).
  { intros H. rewrite <- Hl1 in H.
    now rewrite (_request_for_failure env route kwargs 2 _ w1 s Hs Hc H). }
  assert (F3 : net env (S (S n)) = TransportFailure ->
               _request_for env [3] route kwargs w2 = (Raised HTTPException, w3)).
  { intros H. rewrite <- Hl2 in H.
    now rewrite (_request_for_failure env route kwargs 3 _ w2 s Hs Hc H). }
  assert (R1 : forall status body, net env n = Response status body ->
               out = on_response status body (transmit route kwargs s w)).
  { intros status body H. now apply _request_response. }
  assert (R2 : forall status body, net env (S n) = Response status body ->
               _request_for env [2; 3] route kwargs w1
               = on_response status body (transmit route kwargs s w1)).
  { intros status body H. rewrite <- Hl1 in H. now apply _request_for_response. }
  assert (R3 : forall status body, net env (S (S n)) = Response status body ->
               _request_for env [3] route kwargs w2
               = on_response status body (transmit route kwargs s w2)).
  { intros status body H. rewrite <- Hl2 in H. now apply _request_for_response. }
  assert (Hnot : forall status body w', fst (on_response status body w') <> Raised HTTPException).
  { intros status body w' H.
    destruct (on_response_outcome status body w') as (o & Ho & Hk).
    rewrite Ho in H. cbn in H. subst o. now destruct Hk. }
  split; [|split].
  - intros H1 H2 H3. rewrite (F1 H1), (F2 H2), (F3 H3). cbn.
    rewrite <- !app_assoc. now split.
  - intros Hout.
    assert (I1 : forall kind, interruption (net env n) = Some kind ->
                              fst out <> Raised HTTPException).
    { intros kind H. subst out. unfold _request. rewrite range_1_4.
      now rewrite (_request_for_interrupted env route kwargs 1 _ w s kind Hs Hc H). }
    assert (I2 : forall kind, interruption (net env (S n)) = Some kind ->
                              fst (_request_for env [2; 3] route kwargs w1)
                              <> Raised HTTPException).
    { intros kind H. rewrite <- Hl1 in H.
      now rewrite (_request_for_interrupted env route kwargs 2 _ w1 s kind Hs Hc H). }
    assert (I3 : forall kind, interruption (net env (S (S n))) = Some kind ->
                              fst (_request_for env [3] route kwargs w2)
                              <> Raised HTTPException).
    { intros kind H. rewrite <- Hl2 in H.
      now rewrite (_request_for_interrupted env route kwargs 3 _ w2 s kind Hs Hc H). }
    destruct (net env n) as [st b| | |] eqn:E1;
      [ rewrite (R1 _ _ eq_refl) in Hout; now apply Hnot in Hout | |
        now destruct (I1 _ eq_refl) | now destruct (I1 _ eq_refl) ].
    rewrite (F1 eq_refl) in Hout.
    destruct (net env (S n)) as [st b| | |] eqn:E2;
      [ rewrite (R2 _ _ eq_refl) in Hout; now apply Hnot in Hout | |
        now destruct (I2 _ eq_refl) | now destruct (I2 _ eq_refl) ].
    rewrite (F2 eq_refl) in Hout.
    destruct (net env (S (S n))) as [st b| | |] eqn:E3;
      [ rewrite (R3 _ _ eq_refl) in Hout; now apply Hnot in Hout | |
        now destruct (I3 _ eq_refl) | now destruct (I3 _ eq_refl) ].
    easy.
  - intros k status body Hk Hfail Hresp.
    assert (Hfinal : forall w',
               (status <> 200 -> status <> 202 ->
                exists e, fst (on_response status body w') = Raised e
                          /\ typed e = true /\ e <> HTTPException)
               /\ wire (snd (on_response status body w')) = wire w'
               /\ slept (snd (on_response status body w')) = slept w').
    { intros w'.
      destruct (on_response_outcome status body w') as (o & Ho & Hko).
      rewrite Ho. cbn [fst snd]. split.
      - intros H200 H202. destruct o as [b|e| |]; try easy.
        + subst b. exfalso. revert Ho. unfold on_response.
          case_bool_decide as Hin; [apply success_status in Hin; lia|].
          destruct (status =? 400); [discriminate|].
          destruct (status =? 401); [discriminate|].
          destruct (status =? 403); [discriminate|].
          destruct (status =? 404); [discriminate|].
          destruct ((500 <=? status) && (status <? 600)); discriminate.
        + now exists e.
      - now destruct (status =? 400). }
    destruct k as [|[|[|k]]]; [| | |lia].
    + rewrite Nat.add_0_r in Hresp. rewrite (R1 _ _ Hresp).
      destruct (Hfinal (transmit route kwargs s w)) as (He & -> & ->).
      split; [|split; [|exact He]]; cbn; rewrite ?app_nil_r; reflexivity.
    + rewrite Nat.add_1_r in Hresp.
      assert (H0 : net env n = TransportFailure)
        by (rewrite <- (Nat.add_0_r n); apply Hfail; lia).
      rewrite (F1 H0), (R2 _ _ Hresp).
      destruct (Hfinal (transmit route kwargs s w1)) as (He & -> & ->).
      split; [|split; [|exact He]]; cbn; rewrite <- ?app_assoc; reflexivity.
    + replace (n + 2)%nat with (S (S n)) in Hresp by lia.
      assert (H0 : net env n = TransportFailure)
        by (rewrite <- (Nat.add_0_r n); apply Hfail; lia).
      assert (H1 : net env (S n) = TransportFailure)
        by (rewrite <- (Nat.add_1_r n); apply Hfail; lia).
      rewrite (F1 H0), (F2 H1), (R3 _ _ Hresp).
      destruct (Hfinal (transmit route kwargs s w2)) as (He & -> & ->).
      split; [|split; [|exact He]]; cbn; rewrite <- ?app_assoc; reflexivity.
Qed.

Lemma transport_failures_are_retried_witness :
  let env := scripted [] in
  let out := _request env sample_route NoKwargs sample_world in
  (__session (self sample_world) = Some sample_session
   /\ closed sample_session = false
   /\ net env 0 = TransportFailure /\ net env 1 = TransportFailure
   /\ net env 2 = TransportFailure)
  /\ fst out = Raised HTTPException
  /\ length (wire (snd out)) = 3%nat
  /\ slept (snd out) = [5; 10; 15].
Proof.
  intros env out. split; [now repeat split|].
  destruct (transport_failures_are_retried env sample_route NoKwargs sample_world
              sample_session eq_refl eq_refl) as (Hall & _).
  destruct (Hall eq_refl eq_refl eq_refl) as (Hout & Hwire & Hslept).
  fold out in Hout, Hwire, Hslept. rewrite Hout, Hwire, Hslept. now repeat split.
Defined.

Lemma after_failures_traces route kwargs s k w :
  (k < 3)%nat ->
  wire (after_failures route kwargs s k w) = wire w ++ replicate k (outgoing route kwargs s)
  /\ slept (after_failures route kwargs s k w)
     = slept w ++ ((fun i => 5 * i) <$> seqZ 1 (Z.of_nat k)).
Proof.
  intros Hk. destruct k as [|[|[|k]]]; [| | |lia]; cbn;
    rewrite <- ?app_assoc, ?app_nil_r; now split.
Qed.

(** X22.  A failure of the transport that is no [OSError] is not retried.
    When the server disconnects or the request times out, at the first
    attempt or after attempts that failed with [OSError], that attempt is the
    last one: its exception leaves [_request] as it is, outside the taxonomy
    and not as [HTTPException], and no sleep follows it. *)
Theorem other_transport_failures_are_not_retried env route kwargs w s k :
  __session (self w) = Some s -> closed s = false ->
  (k < 3)%nat ->
  (forall j, (j < k)%nat -> net env (length (wire w) + j)%nat = TransportFailure) ->
  let reply := net env (length (wire w) + k)%nat in
  let out := _request env route kwargs w in
  (reply = ServerDisconnected -> fst out = Raised (PyError ServerDisconnectedError))
  /\ (reply = TimedOut -> fst out = Raised (PyError TimeoutError))
  /\ (reply = ServerDisconnected \/ reply = TimedOut ->
      wire (snd out) = wire w ++ replicate (S k) (outgoing route kwargs s)
      /\ slept (snd out) = slept w ++ ((fun i => 5 * i) <$> seqZ 1 (Z.of_nat k))
      /\ self (snd out) = self w).
Proof.
  intros Hs Hc Hk Hfail reply out.
  assert (Hout : forall kind, interruption reply = Some kind ->
                   out = (Raised (PyError kind),
                          transmit route kwargs s (after_failures route kwargs s k w))).
  { intros kind Hkind. subst out reply.
    rewrite (_request_after_failures env route kwargs w s k Hs Hc Hk Hfail).
    destruct (after_failures_world route kwargs s k w) as (Hself & Hlen & _).
    assert (Hdrop : exists count rest, drop k [1; 2; 3] = count :: rest).
    { destruct k as [|[|[|k]]]; [now eexists _, _ ..|lia]. }
    destruct Hdrop as (count & rest & ->).
    apply _request_for_interrupted; rewrite ?Hself, ?Hlen; assumption. }
  split; [intros H; now rewrite (Hout ServerDisconnectedError) by now rewrite H|].
  split; [intros H; now rewrite (Hout TimeoutError) by now rewrite H|].
  intros H.
  assert (exists kind, interruption reply = Some kind) as [kind Hkind]
      by (destruct H as [-> | ->]; now eexists).
  rewrite (Hout kind Hkind). cbn [snd transmit wire slept self].
  destruct (after_failures_traces route kwargs s k w Hk) as [-> ->].
  destruct (after_failures_world route kwargs s k w) as (-> & _).
  split; [|now split].
  rewrite <- app_assoc. f_equal.
  change (outgoing route kwargs s :: replicate k (outgoing route kwargs s))
    with (replicate (S k) (outgoing route kwargs s)).
  symmetry. apply replicate_S_end.
Qed.

Lemma other_transport_failures_are_not_retried_witness :
  let env := scripted [TransportFailure; TimedOut; Response 200 JNull] in
  let out := _request env sample_route NoKwargs sample_world in
  (__session (self sample_world) = Some sample_session /\ closed sample_session = false
   /\ net env 0 = TransportFailure /\ net env 1 = TimedOut)
  /\ fst out = Raised (PyError TimeoutError)
  /\ length (wire (snd out)) = 2%nat
  /\ slept (snd out) = [5].
Proof.
  intros env out. split; [now repeat split|].
  destruct (other_transport_failures_are_not_retried env sample_route NoKwargs sample_world
              sample_session 1 eq_refl eq_refl) as (_ & Htimeout & Htrace).
  - lia.
  - intros j Hj. assert (j = O) as -> by lia. reflexivity.
  - destruct (Htrace (or_intror eq_refl)) as (Hwire & Hslept & _).
    fold out in Hwire, Hslept. split; [exact (Htimeout eq_refl)|].
    rewrite Hwire, Hslept. now split.
Defined.

(** ** Relations a coroutine keeps

    For a preorder [R], [preserves R] goes through sequencing, exception
    handling and locking. *)

Section Preservation.

Context (R : relation World) `{!PreOrder R}.
Context {A B : Type}.

Lemma preserves_ret (a : A) : preserves R (ret a).
Proof. intros w. reflexivity. Qed.

Lemma preserves_raise e : preserves R (@raise A e).
Proof. intros w. reflexivity. Qed.

Lemma preserves_out_of_fuel : preserves R (@out_of_fuel A).
Proof. intros w. reflexivity. Qed.

Lemma preserves_lift (r : Exn + A) : preserves R (lift r).
Proof. destruct r; [apply preserves_raise | apply preserves_ret]. Qed.

Lemma preserves_gets (f : HTTPClient -> A) : preserves R (gets f).
Proof. intros w. reflexivity. Qed.

Lemma preserves_bind (m : M A) (k : A -> M B) :
  preserves R m -> (forall a, preserves R (k a)) -> preserves R (bind m k).
Proof.
  intros Hm Hk w. unfold bind. specialize (Hm w).
  destruct (m w) as [[a|e| |] w']; cbn in *; try assumption.
  etransitivity; [exact Hm | apply Hk].
Qed.

Lemma preserves_try (m : M A) (handler : Exn -> option (M A)) :
  preserves R m -> (forall e h, handler e = Some h -> preserves R h) ->
  preserves R (try_except m handler).
Proof.
  intros Hm Hh w. unfold try_except. specialize (Hm w).
  destruct (m w) as [[a|e| |] w']; cbn in *; try assumption.
  destruct (handler e) as [h|] eqn:E; [|assumption].
  etransitivity; [exact Hm | now apply (Hh e h)].
Qed.

Lemma preserves_with_lock (m : M A) :
  (forall b w, R w (with_self (set_lock b) w)) ->
  preserves R m -> preserves R (with_lock m).
Proof.
  intros Hlock Hm w. unfold with_lock.
  destruct (_session_lock (self w)); [reflexivity|].
  specialize (Hm (with_self (set_lock true) w)).
  assert (H0 : R w (snd (m (with_self (set_lock true) w))))
    by (etransitivity; [apply Hlock | exact Hm]).
  destruct (m (with_self (set_lock true) w)) as [[a|e| |] w']; cbn in *;
    try assumption;
    (etransitivity; [exact H0 | apply Hlock]).
Qed.

(** What a coroutine adds after [m] is again within [R]. *)
Lemma bind_after (m : M A) (k : A -> M B) w :
  (forall a, preserves R (k a)) -> R (snd (m w)) (snd (bind m k w)).
Proof.
  intros Hk. unfold bind.
  destruct (m w) as [[a|e| |] w']; cbn; try reflexivity. apply Hk.
Qed.

Lemma try_except_after (m : M A) handler w :
  (forall e h, handler e = Some h -> preserves R h) ->
  R (snd (m w)) (snd (try_except m handler w)).
Proof.
  intros Hh. unfold try_except.
  destruct (m w) as [[a|e| |] w']; cbn; try reflexivity.
  destruct (handler e) as [h|] eqn:E; [|reflexivity].
  now apply (Hh e h).
Qed.

End Preservation.

(** One step of a preservation proof: the rule for the head construct. *)
Ltac preserve_step :=
  first
    [ assumption
    | match goal with |- PreOrder _ => typeclasses eauto end
    | apply preserves_ret | apply preserves_raise | apply preserves_out_of_fuel
    | apply preserves_lift | apply preserves_gets
    | apply preserves_bind
    | apply preserves_try
    | match goal with
      | |- forall a, preserves _ _ => intros ?
      | |- forall e h, _ = Some h -> preserves _ _ => intros ? ? ?
      | H : match ?e with _ => _ end = Some _ |- _ =>
          destruct e; try discriminate H; injection H as <-
      | |- preserves _ (if ?b then _ else _) => destruct b
      | |- preserves _ (match ?x with _ => _ end) => destruct x
      end ].

(** *** [_request] only sends its own request *)

#[local] Instance sending_preorder route kwargs : PreOrder (sending route kwargs).
Proof.
  split.
  - intros w. split; try reflexivity.
    + exists []. now rewrite app_nil_r.
    + exists []. now rewrite app_nil_r.
  - intros w1 w2 w3 [A1 A2 A3 A4 [n1 A7] (l1 & A5 & A6)]
           [B1 B2 B3 B4 [n2 B7] (l2 & B5 & B6)].
    split; try congruence.
    + exists (n1 ++ n2). now rewrite B7, A7, app_assoc.
    + exists (l1 ++ l2). split; [now rewrite B5, A5, app_assoc|]. now apply Forall_app.
Qed.

Lemma sending_transmit route kwargs s w : sending route kwargs w (transmit route kwargs s w).
Proof.
  split; try reflexivity.
  - exists []. now rewrite app_nil_r.
  - eexists. split; [reflexivity|]. now repeat constructor.
Qed.

Lemma sending_sleep route kwargs d : preserves (sending route kwargs) (sleep d).
Proof.
  intros w. split; try reflexivity.
  - now exists [d].
  - exists []. now rewrite app_nil_r.
Qed.

Lemma sending_print route kwargs v : preserves (sending route kwargs) (print v).
Proof.
  intros w. split; try reflexivity.
  - exists []. now rewrite app_nil_r.
  - exists []. now rewrite app_nil_r.
Qed.

Lemma sending_session_request env route kwargs :
  preserves (sending route kwargs) (session_request env route kwargs).
Proof.
  intros w. unfold session_request.
  destruct (__session (self w)) as [s|]; [|reflexivity].
  destruct (closed s); [reflexivity|].
  destruct (net env (length (wire w))); apply sending_transmit.
Qed.

Lemma sending_on_response route kwargs status body :
  preserves (sending route kwargs) (on_response status body).
Proof.
  unfold on_response.
  repeat preserve_step. apply sending_print.
Qed.

Lemma sending__request_for env counts route kwargs :
  preserves (sending route kwargs) (_request_for env counts route kwargs).
Proof.
  induction counts as [|count rest IH]; cbn [_request_for]; [repeat preserve_step|].
  repeat preserve_step;
    first [apply sending_session_request | apply sending_on_response
          | apply sending_sleep].
Qed.

Lemma sending__request env route kwargs :
  preserves (sending route kwargs) (_request env route kwargs).
Proof. apply sending__request_for. Qed.

(** *** The token cycle keeps the world steady *)

#[local] Instance steady_preorder : PreOrder steady.
Proof.
  split.
  - intros w. split; try reflexivity.
    + intros s Hs. now exists s.
    + exists []. now rewrite app_nil_r.
    + exists []. now rewrite app_nil_r.
  - intros w1 w2 w3 [A1 A2 A3 A4 [l1 A5] (d1 & A6 & A7) A8]
           [B1 B2 B3 B4 [l2 B5] (d2 & B6 & B7) B8].
    split; try congruence.
    + intros s Hs. destruct (A4 s Hs) as (s' & Hs' & Hc).
      destruct (B4 s' Hs') as (s'' & Hs'' & Hc'). exists s''. split; congruence.
    + exists (l1 ++ l2). now rewrite B5, A5, app_assoc.
    + exists (d1 ++ d2). split; [now rewrite B6, A6, app_assoc|].
      now apply Forall_app.
Qed.

Lemma sending_steady route kwargs w w' : sending route kwargs w w' -> steady w w'.
Proof.
  intros [H1 H2 H3 H4 _ (l & H5 & _)]. split; try congruence.
  - intros s Hs. exists s. split; congruence.
  - now exists l.
  - exists []. now rewrite app_nil_r.
Qed.

Lemma steady_set_lock b w : steady w (with_self (set_lock b) w).
Proof.
  split; try reflexivity.
  - intros s Hs. now exists s.
  - exists []. now rewrite app_nil_r.
  - exists []. now rewrite app_nil_r.
Qed.

Lemma steady__request env route kwargs : preserves steady (_request env route kwargs).
Proof. intros w. eapply sending_steady, sending__request. Qed.

Lemma steady_dispatch_refresh args : preserves steady (_dispatch "refresh_token" args).
Proof.
  intros w. split; try reflexivity.
  - intros s Hs. now exists s.
  - exists []. now rewrite app_nil_r.
  - exists [("refresh_token", args)]. split; [reflexivity|]. now repeat constructor.
Qed.

Lemma steady_headers_update key value : preserves steady (headers_update key value).
Proof.
  intros w. unfold headers_update.
  destruct (__session (self w)) as [s|] eqn:E; [|reflexivity].
  split; try reflexivity.
  - intros s0 Hs. cbn. eexists. split; [reflexivity|]. cbn. congruence.
  - exists []. now rewrite app_nil_r.
  - exists []. now rewrite app_nil_r.
Qed.

Ltac steady_step :=
  first
    [ apply steady__request | apply steady_headers_update
    | apply steady_dispatch_refresh
    | apply preserves_with_lock
    | match goal with |- forall b w, steady _ _ => apply steady_set_lock end
    | preserve_step ].

(** The three mutually recursive coroutines keep the world steady, whatever
    the fuel and however they end. *)
Lemma steady_token_cycle env fuel :
  (forall route kwargs, preserves steady (request env fuel route kwargs))
  /\ (forall generate, preserves steady (_validate_token env fuel generate))
  /\ preserves steady (_generate_token env fuel).
Proof.
  induction fuel as [|fuel (IHr & IHv & IHg)].
  - split; [|split]; intros; repeat preserve_step.
  - split; [|split].
    + intros route kwargs. cbn [request].
      repeat steady_step; try apply IHv; try apply IHr.
    + intros generate. cbn [_validate_token].
      repeat steady_step; try apply IHv; try apply IHg.
    + cbn [_generate_token].
      repeat steady_step; try apply IHr.
Qed.

Lemma steady_request env fuel route kwargs :
  preserves steady (request env fuel route kwargs).
Proof. apply steady_token_cycle. Qed.

Lemma steady__validate_token env fuel generate :
  preserves steady (_validate_token env fuel generate).
Proof. apply steady_token_cycle. Qed.

Lemma steady__generate_token env fuel : preserves steady (_generate_token env fuel).
Proof. apply steady_token_cycle. Qed.

(** *** More fuel changes nothing that has ended *)

Section Extension.

Context {A B : Type}.

Lemma extends_refl (m : M A) : extends m m.
Proof. now intros w o w' H _. Qed.

Lemma extends_out_of_fuel (m : M A) : extends out_of_fuel m.
Proof. intros w o w' [= <- _] H. now destruct H. Qed.

Lemma extends_bind (m m' : M A) (k k' : A -> M B) :
  extends m m' -> (forall a, extends (k a) (k' a)) -> extends (bind m k) (bind m' k').
Proof.
  intros Hm Hk w o w'. unfold bind.
  destruct (m w) as [[a|e| |] w1] eqn:E.
  - rewrite (Hm w _ _ E) by discriminate. apply Hk.
  - rewrite (Hm w _ _ E) by discriminate. now intros [= <- <-].
  - rewrite (Hm w _ _ E) by discriminate. now intros [= <- <-].
  - intros [= <- _] H. now destruct H.
Qed.

Lemma extends_try (m m' : M A) (handler handler' : Exn -> option (M A)) :
  extends m m' ->
  (forall e, match handler e, handler' e with
             | Some h, Some h' => extends h h'
             | None, None => True
             | _, _ => False
             end) ->
  extends (try_except m handler) (try_except m' handler').
Proof.
  intros Hm Hh w o w'. unfold try_except.
  destruct (m w) as [[a|e| |] w1] eqn:E.
  - rewrite (Hm w _ _ E) by discriminate. now intros [= <- <-].
  - rewrite (Hm w _ _ E) by discriminate. specialize (Hh e).
    destruct (handler e) as [h|], (handler' e) as [h'|]; try easy. apply Hh.
  - rewrite (Hm w _ _ E) by discriminate. now intros [= <- <-].
  - intros [= <- _] H. now destruct H.
Qed.

Lemma extends_with_lock (m m' : M A) : extends m m' -> extends (with_lock m) (with_lock m').
Proof.
  intros Hm w o w'. unfold with_lock.
  destruct (_session_lock (self w)); [now intros [= <- <-]|].
  destruct (m (with_self (set_lock true) w)) as [[a|e| |] w1] eqn:E.
  - rewrite (Hm _ _ _ E) by discriminate. now intros [= <- <-].
  - rewrite (Hm _ _ _ E) by discriminate. now intros [= <- <-].
  - rewrite (Hm _ _ _ E) by discriminate. now intros [= <- <-].
  - intros [= <- _] H. now destruct H.
Qed.

End Extension.

Ltac extend_step :=
  first
    [ assumption
    | apply extends_out_of_fuel
    | apply extends_with_lock
    | apply extends_bind
    | apply extends_try
    | match goal with
      | |- forall a, extends _ _ => intros ?
      | |- forall e, match _ with _ => _ end => intros [] ; cbn
      | |- True => exact I
      | |- extends (if ?b then _ else _) _ => destruct b
      | |- extends (match ?x with _ => _ end) _ => destruct x
      end
    | apply extends_refl ].

(** A call of the token cycle that ends with some fuel ends the same way
    with more. *)
Lemma token_cycle_one_more env fuel :
  (forall route kwargs, extends (request env fuel route kwargs)
                                (request env (S fuel) route kwargs))
  /\ (forall generate, extends (_validate_token env fuel generate)
                               (_validate_token env (S fuel) generate))
  /\ extends (_generate_token env fuel) (_generate_token env (S fuel)).
Proof.
  induction fuel as [|fuel (IHr & IHv & IHg)].
  - split; [|split]; intros; apply extends_out_of_fuel.
  - split; [|split].
    + intros route kwargs.
      cbn [request]. repeat extend_step; first [apply IHv | apply IHr].
    + intros generate.
      cbn [_validate_token]. repeat extend_step; first [apply IHv | apply IHg].
    + cbn [_generate_token]. repeat extend_step; apply IHr.
Qed.

Lemma token_cycle_more_fuel env fuel more :
  (forall route kwargs, extends (request env fuel route kwargs)
                                (request env (more + fuel) route kwargs))
  /\ (forall generate, extends (_validate_token env fuel generate)
                               (_validate_token env (more + fuel) generate))
  /\ extends (_generate_token env fuel) (_generate_token env (more + fuel)).
Proof.
  induction more as [|more (IHr & IHv & IHg)].
  - split; [|split]; intros; apply extends_refl.
  - destruct (token_cycle_one_more env (more + fuel)) as (Hr & Hv & Hg).
    split; [|split].
    + intros route kwargs w o w' H Ho. apply Hr; [now apply IHr | exact Ho].
    + intros generate w o w' H Ho. apply Hv; [now apply IHv | exact Ho].
    + intros w o w' H Ho. apply Hg; [now apply IHg | exact Ho].
Qed.

(** ** The outer wrapper [request] *)

Lemma request_returned env fuel route kwargs w data w' :
  _request env route kwargs w = (Returned data, w') ->
  request env (S fuel) route kwargs w = (Returned data, w').
Proof. intros H. cbn [request]. unfold try_except. now rewrite H. Qed.

Lemma request_unauthorized env fuel route kwargs w m w1 :
  _request env route kwargs w = (Raised (Unauthorized m), w1) ->
  request env (S fuel) route kwargs w =
    match _validate_token env fuel true w1 with
    | (Returned _, w2) => request env fuel route kwargs w2
    | (Raised e, w2) => (Raised e, w2)
    | (Suspended, w2) => (Suspended, w2)
    | (OutOfFuel, w2) => (OutOfFuel, w2)
    end.
Proof.
  intros H. cbn [request]. unfold try_except at 1. rewrite H.
  unfold bind, try_except.
  destruct (_validate_token env fuel true w1) as [[v|e| |] w2]; try reflexivity.
  now destruct e.
Qed.

Lemma request_other_failure env fuel route kwargs w e w1 :
  _request env route kwargs w = (Raised e, w1) ->
  (forall m, e <> Unauthorized m) ->
  request env (S fuel) route kwargs w = (Raised e, w1).
Proof.
  intros H Hne. cbn [request]. unfold try_except. rewrite H.
  destruct e; try reflexivity. now destruct (Hne message).
Qed.




(** ** The validator [_validate_token] *)

Lemma _validate_token_returned env fuel generate w v w' :
  _request env validate_route NoKwargs w = (Returned v, w') ->
  _validate_token env (S fuel) generate w = (Returned v, w').
Proof.
  intros H. cbn [_validate_token]. unfold try_except. cbn [Route_init lift].
  unfold bind at 1. cbn [ret]. fold validate_route. now rewrite H.
Qed.

Lemma _validate_token_unauthorized env fuel generate w m w1 :
  _request env validate_route NoKwargs w = (Raised (Unauthorized m), w1) ->
  _validate_token env (S fuel) generate w =
    if generate && (truthy (_client_secret (self w1)) && truthy (_refresh_token (self w1)))
    then
      match _generate_token env fuel w1 with
      | (Returned _, w2) => _validate_token env fuel generate w2
      | (Raised BadRequest, w2) | (Raised (Forbidden _), w2) => (Raised invalid_refresh, w2)
      | (Raised e, w2) => (Raised e, w2)
      | (Suspended, w2) => (Suspended, w2)
      | (OutOfFuel, w2) => (OutOfFuel, w2)
      end
    else (Raised (Unauthorized m), w1).
Proof.
  intros H. cbn [_validate_token]. unfold try_except at 1. cbn [Route_init lift].
  unfold bind at 1. cbn [ret]. fold validate_route. rewrite H.
  unfold bind at 1. unfold gets at 1. cbn [fst snd].
  unfold bind at 1. unfold gets at 1. cbn [fst snd].
  destruct (generate && _); [|reflexivity].
  unfold bind, try_except.
  destruct (_generate_token env fuel w1) as [[r|e| |] w2]; try reflexivity.
  now destruct e.
Qed.



(** ** The refresher [_generate_token] *)

(** The first thing [_request] does on a live session is to send the request. *)
Lemma _request_first_sent env route kwargs w s :
  __session (self w) = Some s -> closed s = false ->
  exists rest, wire (snd (_request env route kwargs w))
               = wire w ++ outgoing route kwargs s :: rest.
Proof.
  intros Hs Hc. destruct (net env (length (wire w))) as [status body| | |] eqn:Hnet.
  - rewrite (_request_response env route kwargs w s status body Hs Hc Hnet).
    destruct (on_response_outcome status body (transmit route kwargs s w)) as (o & -> & _).
    exists []. now destruct (status =? 400).
  - unfold _request. rewrite range_1_4.
    rewrite (_request_for_failure env route kwargs 1 _ w s Hs Hc Hnet).
    destruct (sending_wire _ _ _ _ (sending__request_for env [2; 3] route kwargs
                                      (after_failure route kwargs s 1 w))) as (l & Hl & _).
    exists l. cbn in Hl |- *. now rewrite Hl, <- app_assoc.
  - unfold _request. rewrite range_1_4.
    rewrite (_request_for_interrupted env route kwargs 1 _ w s ServerDisconnectedError Hs Hc)
      by now rewrite Hnet.
    now exists [].
  - unfold _request. rewrite range_1_4.
    rewrite (_request_for_interrupted env route kwargs 1 _ w s TimeoutError Hs Hc)
      by now rewrite Hnet.
    now exists [].
Qed.

Lemma request_first_sent env fuel route kwargs w s :
  __session (self w) = Some s -> closed s = false ->
  exists rest, wire (snd (request env (S fuel) route kwargs w))
               = wire w ++ outgoing route kwargs s :: rest.
Proof.
  intros Hs Hc. destruct (_request_first_sent env route kwargs w s Hs Hc) as [rest Hrest].
  cbn [request].
  match goal with
  | |- context [try_except ?m ?h w] =>
      destruct (steady_wire _ _ (try_except_after steady m h w
        ltac:(intros e h' He; destruct e; try discriminate He; injection He as <-;
              repeat steady_step;
              first [apply steady__validate_token | apply steady_request])))
        as [l Hl]
  end.
  exists (rest ++ l). rewrite Hl, Hrest, <- app_assoc. reflexivity.
Qed.

Lemma truthy_Some (s : string) : s <> "" -> truthy (Some s) = true.
Proof. intros H. cbn. apply negb_true_iff. now apply String.eqb_neq. Qed.

(** Nothing to refresh with, or a refresh under way: [None], nothing done. *)
Lemma _generate_token_skipped env fuel w :
  truthy (_refresh_token (self w)) = false \/ truthy (_client_secret (self w)) = false
  \/ _session_lock (self w) = true ->
  _generate_token env (S fuel) w = (Returned None, w).
Proof.
  intros Hskip. cbn [_generate_token]. unfold bind, gets. cbn [fst snd].
  destruct (_refresh_token (self w)) as [rt|]; [|reflexivity].
  destruct (_client_secret (self w)) as [cs|]; [|reflexivity].
  destruct (truthy (Some rt) && truthy (Some cs)) eqn:E; [|reflexivity].
  apply andb_true_iff in E as [E1 E2].
  destruct Hskip as [H | [H | H]]; [congruence|congruence|].
  now rewrite H.
Qed.

(** [_generate_token] with both credentials in place and the lock free, in
    terms of how the exchange ends. *)
Lemma _generate_token_exchange env fuel w refresh_token client_secret :
  _refresh_token (self w) = Some refresh_token ->
  _client_secret (self w) = Some client_secret ->
  refresh_token <> "" -> client_secret <> "" ->
  _session_lock (self w) = false ->
  _generate_token env (S fuel) w =
    match request env fuel token_route (token_params env (self w) refresh_token client_secret)
                  (with_self (set_lock true) w) with
    | (Returned refresh, w2) =>
        match getitem refresh "access_token", __session (self w2) with
        | inr access_token, Some s2 =>
            (Returned (Some refresh), refreshed env access_token s2 w2)
        | inr _, None => (Raised (PyError AttributeError), with_self (set_lock false) w2)
        | inl e, _ => (Raised e, with_self (set_lock false) w2)
        end
    | (Raised e, w2) => (Raised e, with_self (set_lock false) w2)
    | (Suspended, w2) => (Suspended, w2)
    | (OutOfFuel, w2) => (OutOfFuel, w2)
    end.
Proof.
  intros Ht Hsec Hne1 Hne2 Hlock.
  cbn [_generate_token]. unfold bind at 1, gets at 1. cbn [fst snd].
  unfold bind at 1, gets at 1. cbn [fst snd].
  rewrite Ht, Hsec, (truthy_Some _ Hne1), (truthy_Some _ Hne2). cbn [andb].
  unfold bind at 1, gets at 1. cbn [fst snd]. rewrite Hlock. cbn [negb].
  unfold with_lock. rewrite Hlock.
  set (w0 := with_self (set_lock true) w).
  unfold bind at 1, gets at 1. cbn [fst snd].
  change (_client_id (self w0)) with (_client_id (self w)).
  unfold bind at 1. cbn [Route_init lift ret]. fold token_route.
  unfold bind at 1. unfold token_params.
  match goal with
  | |- context [request env fuel token_route ?p ?w0] =>
      destruct (request env fuel token_route p w0) as [[refresh|e| |] w2]
  end; try reflexivity.
  destruct (getitem refresh "access_token") as [e|access_token]; [reflexivity|].
  cbn [lift ret]. unfold bind at 1. cbn [ret]. unfold bind at 1, headers_update at 1.
  destruct (__session (self w2)) as [s2|]; reflexivity.
Qed.

(** C7.  [_generate_token] returns [None] and leaves everything as it is when
    the refresh token or the client secret is missing (Python-false: [None] or
    empty) or the session lock is held.  Otherwise it posts the refresh-token
    grant to the identity provider, and when that exchange returns it puts
    the new bearer token into the session's [Authorization] header, dispatches
    [refresh_token] with the new access token and returns the new pair. *)
Theorem generate_token_exchanges env fuel w :
  (truthy (_refresh_token (self w)) = false \/ truthy (_client_secret (self w)) = false
   \/ _session_lock (self w) = true ->
   _generate_token env (S fuel) w = (Returned None, w))
  /\ (forall refresh_token client_secret s,
         _refresh_token (self w) = Some refresh_token ->
         _client_secret (self w) = Some client_secret ->
         refresh_token <> "" -> client_secret <> "" ->
         _session_lock (self w) = false ->
         __session (self w) = Some s -> closed s = false ->
         let params := token_params env (self w) refresh_token client_secret in
         (exists rest, wire (snd (_generate_token env (S (S fuel)) w))
                       = wire w ++ outgoing token_route params s :: rest)
         /\ forall refresh w2 access_token,
             request env (S fuel) token_route params (with_self (set_lock true) w)
             = (Returned refresh, w2) ->
             getitem refresh "access_token" = inr access_token ->
             exists s2,
               __session (self w2) = Some s2
               /\ _generate_token env (S (S fuel)) w
                  = (Returned (Some refresh), refreshed env access_token s2 w2)).
Proof.
  split.
  - apply _generate_token_skipped.
  - intros rt cs s Ht Hsec Hne1 Hne2 Hlock Hs Hc params.
    pose proof (_generate_token_exchange env (S fuel) w rt cs Ht Hsec Hne1 Hne2 Hlock)
      as Hstep.
    fold params in Hstep.
    set (w0 := with_self (set_lock true) w) in *.
    assert (Hlive : forall w2, steady w0 w2 -> exists s2, __session (self w2) = Some s2).
    { intros w2 Hw2. destruct (steady_session _ _ Hw2 s Hs) as (s2 & Hs2 & _). now exists s2. }
    split.
    + destruct (request_first_sent env fuel token_route params w0 s Hs Hc) as [rest Hrest].
      rewrite Hstep.
      destruct (request env (S fuel) token_route params w0) as [[refresh|e| |] w2];
        cbn [snd] in Hrest |- *; try (exists rest; exact Hrest).
      destruct (getitem refresh "access_token") as [e|access_token];
        destruct (__session (self w2)); exists rest; exact Hrest.
    + intros refresh w2 access_token Hreq Htok.
      destruct (Hlive w2) as [s2 Hs2].
      { pose proof (steady_request env (S fuel) token_route params w0) as H.
        now rewrite Hreq in H. }
      exists s2. split; [exact Hs2|].
      now rewrite Hstep, Hreq, Htok, Hs2.
Qed.

Lemma generate_token_exchanges_witness :
  let refresh := obj [("access_token", JStr "new"); ("refresh_token", JStr "next")] in
  let env := scripted [Response 200 refresh] in
  let out := _generate_token env 3 sample_world in
  (_refresh_token (self sample_world) = Some "refresh"
   /\ _client_secret (self sample_world) = Some "secret"
   /\ _session_lock (self sample_world) = false
   /\ __session (self sample_world) = Some sample_session)
  /\ fst out = Returned (Some refresh)
  /\ authorization (snd out) = Some "Bearer new"
  /\ dispatched (snd out) = [("refresh_token", [JStr "new"])]
  /\ (sent_url <$> wire (snd out)) = [token_url]
  /\ _generate_token env 3 (with_self (set_lock true) sample_world)
     = (Returned None, with_self (set_lock true) sample_world).
Proof.
  intros refresh env out. split; [repeat split|].
  destruct (generate_token_exchanges env 1 sample_world) as [_ Hgo].
  destruct (Hgo "refresh" "secret" sample_session eq_refl eq_refl
              ltac:(discriminate) ltac:(discriminate) eq_refl eq_refl eq_refl)
    as [_ Hdone].
  destruct (Hdone refresh _ (JStr "new") eq_refl eq_refl) as (s2 & Hs2 & Hout).
  injection Hs2 as <-. subst out. rewrite Hout.
  split; [reflexivity|]. split; [reflexivity|]. split; [reflexivity|].
  split; [reflexivity|].
  apply (generate_token_exchanges env 2 (with_self (set_lock true) sample_world)).
  right. right. reflexivity.
Defined.

(** ** The background loop [Refresher] *)

Lemma _validate_token_plain env fuel w :
  _validate_token env (S fuel) false w = _request env validate_route NoKwargs w.
Proof.
  cbn [_validate_token]. unfold try_except. cbn [Route_init lift].
  unfold bind at 1. cbn [ret]. fold validate_route.
  destruct (_request env validate_route NoKwargs w) as [[v|e| |] w1]; try reflexivity.
  now destruct e.
Qed.

#[local] Instance calm_preorder : PreOrder calm.
Proof.
  split.
  - intros w H. split; [exact H| |].
    + exists []. now rewrite app_nil_r.
    + exists []. now rewrite app_nil_r.
  - intros w1 w2 w3 H12 H23 H.
    destruct (H12 H) as [A1 (l1 & A2 & A3) [n1 A4]].
    destruct (H23 A1) as [B1 (l2 & B2 & B3) [n2 B4]].
    split; [exact B1| |].
    + exists (l1 ++ l2). split; [now rewrite B2, A2, app_assoc|]. now apply Forall_app.
    + exists (n1 ++ n2). now rewrite B4, A4, app_assoc.
Qed.

Lemma sending_calm w w' : sending validate_route NoKwargs w w' -> calm w w'.
Proof.
  intros [H1 H2 H3 H4 H5 (l & H6 & H7)] H. split.
  - now rewrite H1.
  - exists l. split; [exact H6|].
    eapply Forall_impl; [exact H7|]. intros x (Hm & Hu & _). now split.
  - exact H5.
Qed.

Lemma calm_sleep d : preserves calm (sleep d).
Proof. intros w. apply sending_calm, sending_sleep. Qed.

Lemma calm_time env : preserves calm (time env).
Proof.
  intros w H. split; [exact H| |].
  - exists []. now rewrite app_nil_r.
  - exists []. now rewrite app_nil_r.
Qed.

Lemma calm_warning msg : preserves calm (warning msg).
Proof.
  intros w H. split; [exact H| |].
  - exists []. now rewrite app_nil_r.
  - exists []. now rewrite app_nil_r.
Qed.

Lemma calm_forget_token : preserves calm (modify (set_refresh_token None)).
Proof.
  intros w H. split; [reflexivity| |].
  - exists []. now rewrite app_nil_r.
  - exists []. now rewrite app_nil_r.
Qed.

Lemma calm__generate_token env fuel : preserves calm (_generate_token env fuel).
Proof.
  intros w H. destruct fuel as [|fuel]; [now apply calm_preorder|].
  rewrite _generate_token_skipped; [now apply calm_preorder|].
  unfold refreshable in H. apply andb_false_iff in H. tauto.
Qed.

Lemma calm__validate_token env fuel : preserves calm (_validate_token env fuel false).
Proof.
  intros w. destruct fuel as [|fuel]; [reflexivity|].
  rewrite _validate_token_plain. apply sending_calm, sending__request.
Qed.

Lemma calm_Refresher_while env rounds fuel :
  forall start_time expires_in,
    preserves calm (Refresher_while env rounds fuel start_time expires_in).
Proof.
  induction rounds as [|rounds IH]; intros start_time expires_in;
    cbn [Refresher_while]; [repeat preserve_step|].
  repeat first
    [ apply calm_sleep | apply calm_time | apply calm_warning | apply calm_forget_token
    | apply calm__generate_token | apply calm__validate_token | apply IH
    | preserve_step ].
Qed.

Lemma calm_Refresher env rounds fuel expires_in :
  preserves calm (Refresher env rounds fuel expires_in).
Proof.
  unfold Refresher.
  repeat first [ apply calm_time | apply calm_Refresher_while | preserve_step ].
Qed.

Lemma _validate_token_ok env fuel generate w s body :
  __session (self w) = Some s -> closed s = false ->
  net env (length (wire w)) = Response 200 body ->
  _validate_token env (S fuel) generate w
  = (Returned body, transmit validate_route NoKwargs s w).
Proof.
  intros Hs Hc Hnet. apply _validate_token_returned.
  now rewrite (_request_response env _ _ w s 200 body Hs Hc Hnet).
Qed.

(** One round of the loop when there is nothing to refresh with and the
    validation is answered: it sleeps once, validates once, and goes on with
    what the validation holds under [expires_in]. *)
Lemma Refresher_round env rounds fuel start_time x w s fields v :
  refreshable (self w) = false ->
  __session (self w) = Some s -> closed s = false ->
  net env (length (wire w)) = Response 200 (JObj fields) ->
  fields !! "expires_in" = Some v ->
  exists start_time' w',
    Refresher_while env (S rounds) (S fuel) start_time (JNum x) w
    = Refresher_while env rounds (S fuel) start_time' v w'
    /\ self w' = self w
    /\ wire w' = wire w ++ [outgoing validate_route NoKwargs s]
    /\ slept w' = slept w ++ [Z.min (x - 300) 3540].
Proof.
  intros Hcred Hs Hc Hnet Hv.
  assert (Hskip : forall w1, self w1 = self w ->
                             _generate_token env (S fuel) w1 = (Returned None, w1)).
  { intros w1 Hw1. apply _generate_token_skipped. rewrite Hw1.
    unfold refreshable in Hcred. apply andb_false_iff in Hcred. tauto. }
  assert (Hval : forall w1, self w1 = self w -> wire w1 = wire w ->
                            _validate_token env (S fuel) false w1
                            = (Returned (JObj fields), transmit validate_route NoKwargs s w1)).
  { intros w1 Hw1 Hwire. apply _validate_token_ok; rewrite ?Hw1, ?Hwire; assumption. }
  cbn [Refresher_while].
  unfold bind, try_except, sleep, time, lift, as_int, ret.
  cbn -[_generate_token _validate_token Refresher_while Z.min Z.sub Z.geb].
  destruct (clock env (ticks w) - start_time >=? x - 300).
  - rewrite Hskip by reflexivity. rewrite Hval by reflexivity.
    cbn -[_generate_token _validate_token Refresher_while Z.min Z.sub Z.geb].
    rewrite Hv. eexists _, _. split; [reflexivity|]. now repeat split.
  - rewrite Hval by reflexivity.
    cbn -[_generate_token _validate_token Refresher_while Z.min Z.sub Z.geb].
    rewrite Hv. eexists _, _. split; [reflexivity|]. now repeat split.
Qed.

Lemma Refresher_while_naps env fuel rounds :
  forall start_time x w s reported,
    refreshable (self w) = false ->
    __session (self w) = Some s -> closed s = false ->
    (forall k, (k < rounds)%nat ->
               exists fields,
                 net env (length (wire w) + k)%nat = Response 200 (JObj fields)
                 /\ fields !! "expires_in" = Some (JNum (reported k))) ->
    let out := Refresher_while env rounds (S fuel) start_time (JNum x) w in
    fst out = OutOfFuel /\ slept (snd out) = slept w ++ naps rounds x reported.
Proof.
  induction rounds as [|rounds IH]; intros start_time x w s reported Hcred Hs Hc Hnet out.
  - subst out. cbn. now rewrite app_nil_r.
  - destruct (Hnet O) as (fields & Hnet0 & Hv); [lia|]. rewrite Nat.add_0_r in Hnet0.
    destruct (Refresher_round env rounds fuel start_time x w s fields _ Hcred Hs Hc Hnet0 Hv)
      as (start_time' & w' & Hstep & Hself & Hwire & Hslept).
    subst out. rewrite Hstep.
    destruct (IH start_time' (reported O) w' s (fun k => reported (S k))) as [Hout Hnaps].
    + now rewrite Hself.
    + now rewrite Hself.
    + exact Hc.
    + intros k Hlt. destruct (Hnet (S k)) as (fields' & Hk & Hv'); [lia|]. exists fields'.
      split; [|exact Hv']. rewrite Hwire, length_app. cbn [length].
      now replace (length (wire w) + 1 + k)%nat with (length (wire w) + S k)%nat by lia.
    + split; [exact Hout|]. rewrite Hnaps, Hslept, <- app_assoc. reflexivity.
Qed.

Lemma Refresher_first_sleep env rounds fuel start_time x w :
  refreshable (self w) = false ->
  exists rest, slept (snd (Refresher_while env (S rounds) fuel start_time (JNum x) w))
               = slept w ++ Z.min (x - 300) 3540 :: rest.
Proof.
  intros Hcred. cbn [Refresher_while]. unfold bind at 1. cbn [as_int lift ret].
  match goal with
  | |- context [bind (sleep ?d) ?k w] =>
      assert (Hk : forall a, preserves calm (k a));
      [|destruct (bind_after calm (sleep d) k w Hk) as [_ _ [rest Hrest]];
        [exact Hcred|]; exists rest; rewrite Hrest; cbn; now rewrite <- app_assoc]
  end.
  intros _.
  repeat first
    [ apply calm_sleep | apply calm_time | apply calm_warning | apply calm_forget_token
    | apply calm__generate_token | apply calm__validate_token | apply calm_Refresher_while
    | preserve_step ].
Qed.

(** C8.  The default interval does not last.  A client with neither a
    refresh token nor a client secret starts the loop with the default of
    3540 + 300 seconds and sends validation requests only, but the first
    validation overwrites the default: reporting 1000 seconds, it makes the
    second sleep 700 seconds instead of 3540. *)
Theorem refresher_default_is_overwritten :
  let validation := Response 200 (obj [("expires_in", JNum 1000)]) in
  let env := scripted [validation; validation] in
  let out := Refresher env 2 2 7200 bare_world in
  (_refresh_token (self bare_world) = None /\ _client_secret (self bare_world) = None)
  /\ (sent_url <$> wire (snd out)) = [validate_url; validate_url]
  /\ slept (snd out) = [3540; 700]
  /\ ~ fixed_cadence env 2 2 7200 bare_world.
Proof.
  intros validation env out.
  split; [now split|]. split; [reflexivity|]. split; [reflexivity|].
  intros (l & Hl & Hall). vm_compute in Hl. subst l.
  apply Forall_cons in Hall as [_ Hall]. apply Forall_cons in Hall as [H _].
  discriminate H.
Qed.

(** ** [subscribe] *)

Lemma bind_assoc {A B C} (m : M A) (k : A -> M B) (k' : B -> M C) w :
  bind (bind m k) k' w = bind m (fun a => bind (k a) k') w.
Proof. unfold bind. now destruct (m w) as [[a|e| |] w1]. Qed.

Lemma bind_ext {A B} (m : M A) (k k' : A -> M B) w :
  (forall a w1, k a w1 = k' a w1) -> bind m k w = bind m k' w.
Proof. intros H. unfold bind. destruct (m w) as [[a|e| |] w1]; try reflexivity. apply H. Qed.

Section Subscribe.

Variables (env : Env) (fuel : nat) (user_id session_id : string).

Lemma steady_subscribe_for subscriptions :
  preserves steady (subscribe_for env fuel user_id session_id subscriptions).
Proof.
  induction subscriptions as [|subscription rest IH]; cbn [subscribe_for];
    repeat first [apply steady_request | steady_step].
Qed.

Lemma subscribe_for_app before rest w :
  subscribe_for env fuel user_id session_id (before ++ rest) w
  = (subscribe_for env fuel user_id session_id before ;;
     subscribe_for env fuel user_id session_id rest) w.
Proof.
  revert w. induction before as [|subscription before IH]; intros w; [reflexivity|].
  cbn [app subscribe_for]. rewrite bind_assoc. apply bind_ext. intros _ w1. apply IH.
Qed.

(** One submission, in terms of how its request ends. *)
Lemma subscribe_for_one subscription rest w :
  subscribe_for env fuel user_id session_id (subscription :: rest) w =
    match request env fuel subscriptions_route
                  (JsonBody (subscription_data user_id session_id subscription)) w with
    | (Returned _, w1) => subscribe_for env fuel user_id session_id rest w1
    | (Raised BadRequest, w1) =>
        (Raised (SubscriptionError (name subscription) (version subscription)), w1)
    | (Raised (Forbidden _), w1) =>
        (Raised (Forbidden (Some ("Subscription `" +:+ name subscription
                                  +:+ "` is missing proper authorization"))), w1)
    | (Raised e, w1) => (Raised e, w1)
    | (Suspended, w1) => (Suspended, w1)
    | (OutOfFuel, w1) => (OutOfFuel, w1)
    end.
Proof.
  cbn [subscribe_for]. unfold bind at 1, try_except. cbn [Route_init lift].
  unfold bind at 1. cbn [ret]. fold subscriptions_route. unfold bind at 1.
  destruct (request env fuel subscriptions_route _ w) as [[d|e| |] w1]; try reflexivity.
  now destruct e.
Qed.

End Subscribe.

(** C1 (as amended).  [subscribe] submits the subscriptions in order.  The
    first rejection ends the call in the world of the rejected request, so
    no later sibling is submitted: [BadRequest] becomes a [SubscriptionError]
    with that subscription's name and version, [Forbidden] is raised again
    with the subscription's name in its message.  A call that raises has not
    dispatched [ready]; a call whose submissions all succeed dispatches it
    last. *)
Theorem subscribe_stops_at_first_rejection env fuel user_id session_id before sub rest w w1 :
  subscribe_for env fuel user_id session_id before w = (Returned tt, w1) ->
  let post := request env fuel subscriptions_route
                      (JsonBody (subscription_data user_id session_id sub)) w1 in
  let call := subscribe env fuel user_id session_id (before ++ sub :: rest) w in
  (forall w2, post = (Raised BadRequest, w2) ->
              call = (Raised (SubscriptionError (name sub) (version sub)), w2))
  /\ (forall m w2, post = (Raised (Forbidden m), w2) ->
                   call = (Raised (Forbidden (Some ("Subscription `" +:+ name sub
                                                    +:+ "` is missing proper authorization"))),
                           w2))
  /\ (forall e, fst call = Raised e -> ready ∉ dispatched w -> ready ∉ dispatched (snd call))
  /\ (forall d w2, post = (Returned d, w2) -> rest = [] ->
                   fst call = Returned tt /\ dispatched (snd call) = dispatched w2 ++ [ready]).
Proof.
  intros Hbefore post call.
  assert (Hcall : call = (subscribe_for env fuel user_id session_id (sub :: rest) ;;
                          _dispatch "ready" []) w1).
  { subst call. unfold subscribe. unfold bind at 1.
    rewrite subscribe_for_app. unfold bind at 1. rewrite Hbefore. reflexivity. }
  unfold bind at 1 in Hcall. rewrite subscribe_for_one in Hcall. fold post in Hcall.
  pose proof (steady_subscribe_for env fuel user_id session_id (before ++ sub :: rest) w)
    as Hsteady.
  rewrite subscribe_for_app in Hsteady. unfold bind at 1 in Hsteady.
  rewrite Hbefore, subscribe_for_one in Hsteady. fold post in Hsteady.
  assert (Hkeep : forall w', ready ∉ dispatched w -> steady w w' -> ready ∉ dispatched w').
  { intros w' Hready [_ _ _ _ _ (l & -> & Hl) _]. rewrite elem_of_app. intros [H|H]; [easy|].
    rewrite Forall_forall in Hl. now apply Hl in H. }
  rewrite Hcall. clear Hcall. clearbody post. clear call.
  split; [|split; [|split]].
  - intros w2 ->. reflexivity.
  - intros m w2 ->. reflexivity.
  - intros e He Hready. revert He Hsteady.
    destruct post as [[d|e'| |] w2]; cbn [fst snd].
    + destruct (subscribe_for env fuel user_id session_id rest w2) as [[[]|e''| |] w3];
        cbn [fst snd _dispatch]; intros He Hst; try discriminate He; now apply Hkeep.
    + destruct e'; cbn [fst snd]; intros _; now apply Hkeep.
    + discriminate.
    + discriminate.
  - intros d w2 -> ->. cbn. split; reflexivity.
Qed.

Lemma subscribe_stops_at_first_rejection_witness :
  let env := scripted [Response 202 JNull; Response 400 JNull; Response 202 JNull] in
  let first := [{| name := "channel.follow"; version := "2" |}] in
  let second := {| name := "channel.cheer"; version := "1" |} in
  let third := [{| name := "channel.raid"; version := "1" |}] in
  let call := subscribe env 1 "141981764" "session" (first ++ second :: third) sample_world in
  fst (subscribe_for env 1 "141981764" "session" first sample_world) = Returned tt
  /\ fst call = Raised (SubscriptionError "channel.cheer" "1")
  /\ length (wire (snd call)) = 2%nat
  /\ dispatched (snd call) = [].
Proof.
  intros env first second third call. split; [reflexivity|].
  destruct (subscribe_stops_at_first_rejection env 1 "141981764" "session" first second
              third sample_world _ eq_refl) as (Hbad & _).
  subst call. rewrite (Hbad _ eq_refl). now repeat split.
Defined.

(** C1 as stated fails: with the second of three subscriptions rejected, the
    third is never submitted and [ready] is not dispatched. *)
Lemma rejected_subscription_aborts_batch :
  let env := scripted [Response 202 JNull; Response 400 JNull; Response 202 JNull] in
  ~ siblings_attempted env 1 "141981764" "session" sample_batch sample_world
  /\ ~ ready_dispatched env 1 "141981764" "session" sample_batch sample_world.
Proof.
  split.
  - intros Hsent. vm_compute in Hsent. lia.
  - unfold ready_dispatched. intros Hready. vm_compute in Hready.
    now apply elem_of_nil in Hready.
Qed.

(** ** [open_session] *)

(** Whatever the validation reports, a call that returns leaves the refresh
    token it was given in place. *)
Lemma open_session_stores_refresh_token env fuel token refresh_token w v w' :
  open_session env fuel token refresh_token w = (Returned v, w') ->
  _refresh_token (self w') = refresh_token.
Proof.
  unfold open_session. unfold bind at 1.
  destruct (_open token w) as [[[]|e| |] w1]; try discriminate.
  unfold bind at 1. cbn [modify].
  set (w2 := with_self (set_refresh_token refresh_token) w1).
  unfold bind at 1.
  pose proof (steady_token _ _ (steady__validate_token env fuel true w2)) as Hkeep.
  destruct (_validate_token env fuel true w2) as [[validation|e| |] w3]; try discriminate.
  cbn [snd] in Hkeep. change (_refresh_token (self w2)) with refresh_token in Hkeep.
  unfold bind at 1.
  destruct (getitem validation "expires_in") as [e|expires_in]; [discriminate|].
  cbn [lift ret]. unfold bind at 1.
  destruct (eq_zero expires_in).
  - unfold bind at 1, gets at 1. cbn [fst snd].
    case_bool_decide; cbn; intros [= _ <-]; exact Hkeep.
  - cbn. now intros [= _ <-].
Qed.

(** C2 (the code at the failing input).  An initial validation that reports
    [expires_in] 0 returns with the warning logged and the refresh token
    still stored, and the next refresh does exchange it. *)
Theorem open_session_keeps_refresh_token :
  let validation := obj [("expires_in", JNum 0)] in
  let env := scripted [Response 200 validation;
                       Response 200 (obj [("access_token", JStr "new")])] in
  let opened := open_session env 1 "token" (Some "refresh") closed_world in
  fst opened = Returned validation
  /\ _refresh_token (self (snd opened)) = Some "refresh"
  /\ warnings (snd opened)
     = ["The refresh token has been removed due to the access token returning an expire time of 0."]
  /\ (sent_url <$> wire (snd (_generate_token env 2 (snd opened))))
     = [validate_url; token_url].
Proof. now repeat split. Qed.

(** ** The accessors *)

(** Subscripting and [len] fail with built-in errors only. *)
Lemma getitem_error v key e : getitem v key = inl e -> exists kind, e = PyError kind.
Proof.
  destruct v; cbn; try (intros [= <-]; now eexists).
  destruct (fields !! key); [discriminate|]. intros [= <-]. now eexists.
Qed.

Lemma getitem0_error v e : getitem0 v = inl e -> exists kind, e = PyError kind.
Proof.
  destruct v as [| | |s|items|]; cbn; try (intros [= <-]; now eexists).
  - destruct s; [|discriminate]. intros [= <-]. now eexists.
  - destruct items; [|discriminate]. intros [= <-]. now eexists.
Qed.

Lemma len_error v e : len v = inl e -> exists kind, e = PyError kind.
Proof. destruct v; cbn; try discriminate; intros [= <-]; now eexists. Qed.

Section Accessors.

Variables (env : Env) (fuel : nat).

Lemma get_client_unwraps w :
  get_client env fuel w =
    match request env fuel users_route NoKwargs w with
    | (Returned data, w1) =>
        match getitem data "data" with
        | inr items => lift (getitem0 items) w1
        | inl e => (Raised e, w1)
        end
    | (Raised e, w1) => (Raised e, w1)
    | (Suspended, w1) => (Suspended, w1)
    | (OutOfFuel, w1) => (OutOfFuel, w1)
    end.
Proof.
  unfold get_client. cbn [Route_init lift]. unfold bind at 1. cbn [ret].
  fold users_route. unfold bind at 1.
  destruct (request env fuel users_route NoKwargs w) as [[data|e| |] w1]; try reflexivity.
  unfold bind. now destruct (getitem data "data").
Qed.

Lemma get_channel_unwraps broadcaster_id w :
  get_channel env fuel broadcaster_id w =
    match request env fuel (channels_route broadcaster_id) NoKwargs w with
    | (Returned data, w1) =>
        match getitem data "data" with
        | inr items => lift (getitem0 items) w1
        | inl e => (Raised e, w1)
        end
    | (Raised e, w1) => (Raised e, w1)
    | (Suspended, w1) => (Suspended, w1)
    | (OutOfFuel, w1) => (OutOfFuel, w1)
    end.
Proof.
  unfold get_channel. cbn [Route_init lift]. unfold bind at 1. cbn [ret].
  fold (channels_route broadcaster_id). unfold bind at 1.
  destruct (request env fuel (channels_route broadcaster_id) NoKwargs w)
    as [[data|e| |] w1]; try reflexivity.
  unfold bind. now destruct (getitem data "data").
Qed.

(** An accepted response whose [data] list is empty ends both accessors
    with an [IndexError]. *)
Lemma accessors_on_empty_data broadcaster_id w data w1 :
  getitem data "data" = inr (JList []) ->
  (request env fuel users_route NoKwargs w = (Returned data, w1) ->
   get_client env fuel w = (Raised (PyError IndexError), w1))
  /\ (request env fuel (channels_route broadcaster_id) NoKwargs w = (Returned data, w1) ->
      get_channel env fuel broadcaster_id w = (Raised (PyError IndexError), w1)).
Proof.
  intros Hdata. split; intros Hreq.
  - now rewrite get_client_unwraps, Hreq, Hdata.
  - now rewrite get_channel_unwraps, Hreq, Hdata.
Qed.

Lemma get_stream_unwraps user_id w :
  get_stream env fuel user_id w =
    match request env fuel (streams_route user_id) NoKwargs w with
    | (Returned data, w1) =>
        match getitem data "data" with
        | inr items =>
            match len items with
            | inr count =>
                if count =? 1 then
                  match getitem0 items with
                  | inr stream => (Returned (Some stream), w1)
                  | inl e => (Raised e, w1)
                  end
                else (Returned None, w1)
            | inl e => (Raised e, w1)
            end
        | inl e => (Raised e, w1)
        end
    | (Raised NotFound, w1) => (Returned None, w1)
    | (Raised e, w1) => (Raised e, w1)
    | (Suspended, w1) => (Suspended, w1)
    | (OutOfFuel, w1) => (OutOfFuel, w1)
    end.
Proof.
  unfold get_stream, try_except. cbn [Route_init lift]. unfold bind at 1. cbn [ret].
  fold (streams_route user_id). unfold bind at 1.
  destruct (request env fuel (streams_route user_id) NoKwargs w) as [[data|e| |] w1];
    try reflexivity; [|now destruct e].
  unfold bind at 1.
  destruct (getitem data "data") as [e|items] eqn:Hitems; cbn [lift raise ret].
  { now destruct (getitem_error _ _ _ Hitems) as [kind ->]. }
  unfold bind at 1.
  destruct (len items) as [e|count] eqn:Hcount; cbn [lift raise ret].
  { now destruct (len_error _ _ Hcount) as [kind ->]. }
  destruct (count =? 1); [|reflexivity].
  unfold bind at 1. rewrite ?Hitems. cbn [lift ret]. unfold bind at 1.
  destruct (getitem0 items) as [e|stream] eqn:Hstream; cbn [lift raise ret]; [|reflexivity].
  now destruct (getitem0_error _ _ Hstream) as [kind ->].
Qed.

End Accessors.

(** C9 (the code at the failing input).  A 200 response whose [data] list is
    empty makes [get_client] and [get_channel] fail with [IndexError], which
    is none of the typed errors. *)
Theorem accessors_fail_untyped_on_empty_data :
  let env := scripted [Response 200 (obj [("data", JList [])])] in
  fst (get_client env 1 sample_world) = Raised (PyError IndexError)
  /\ fst (get_channel env 1 "141981764" sample_world) = Raised (PyError IndexError)
  /\ typed (PyError IndexError) = false.
Proof. now repeat split. Qed.

(** C10.  [get_stream] returns [None] when the pipeline fails with
    [NotFound], which it never lets through, and when an accepted response
    holds a [data] list of any length but one; a list of exactly one element
    gives that element. *)
Theorem get_stream_none_unless_single env fuel user_id w :
  let post := request env fuel (streams_route user_id) NoKwargs w in
  let call := get_stream env fuel user_id w in
  (forall w1, post = (Raised NotFound, w1) -> call = (Returned None, w1))
  /\ fst call <> Raised NotFound
  /\ (forall data items w1,
         post = (Returned data, w1) -> getitem data "data" = inr (JList items) ->
         length items <> 1%nat -> call = (Returned None, w1))
  /\ (forall data stream w1,
         post = (Returned data, w1) -> getitem data "data" = inr (JList [stream]) ->
         call = (Returned (Some stream), w1)).
Proof.
  intros post call.
  assert (Hcall := get_stream_unwraps env fuel user_id w). fold post call in Hcall.
  rewrite Hcall. clear Hcall. clearbody post. clear call.
  split; [|split; [|split]].
  - now intros w1 ->.
  - destruct post as [[data|e| |] w1]; cbn [fst]; try discriminate.
    + destruct (getitem data "data") as [e|items] eqn:Hitems.
      { now destruct (getitem_error _ _ _ Hitems) as [kind ->]. }
      destruct (len items) as [e|count] eqn:Hcount.
      { now destruct (len_error _ _ Hcount) as [kind ->]. }
      destruct (count =? 1); [|discriminate].
      destruct (getitem0 items) as [e|stream] eqn:Hstream; [|discriminate].
      now destruct (getitem0_error _ _ Hstream) as [kind ->].
    + now destruct e.
  - intros data items w1 -> -> Hlen. cbn [len].
    assert ((Z.of_nat (length items) =? 1) = false) as -> by lia. reflexivity.
  - now intros data stream w1 -> ->.
Qed.

Lemma get_stream_none_unless_single_witness :
  let ask replies := fst (get_stream (scripted replies) 1 "141981764" sample_world) in
  ask [Response 404 JNull] = Returned None
  /\ ask [Response 200 (obj [("data", JList [])])] = Returned None
  /\ ask [Response 200 (obj [("data", JList [JStr "a"; JStr "b"])])] = Returned None
  /\ ask [Response 200 (obj [("data", JList [JStr "a"])])] = Returned (Some (JStr "a")).
Proof.
  intros ask. subst ask. cbv beta.
  split; [|split; [|split]].
  - destruct (get_stream_none_unless_single (scripted [Response 404 JNull]) 1
                "141981764" sample_world) as (Hnf & _).
    now rewrite (Hnf _ eq_refl).
  - destruct (get_stream_none_unless_single
                (scripted [Response 200 (obj [("data", JList [])])]) 1
                "141981764" sample_world) as (_ & _ & Hlen & _).
    now rewrite (Hlen _ [] _ eq_refl eq_refl ltac:(discriminate)).
  - destruct (get_stream_none_unless_single
                (scripted [Response 200 (obj [("data", JList [JStr "a"; JStr "b"])])]) 1
                "141981764" sample_world) as (_ & _ & Hlen & _).
    now rewrite (Hlen _ [JStr "a"; JStr "b"] _ eq_refl eq_refl ltac:(discriminate)).
  - destruct (get_stream_none_unless_single
                (scripted [Response 200 (obj [("data", JList [JStr "a"])])]) 1
                "141981764" sample_world) as (_ & _ & _ & Hone).
    now rewrite (Hone _ (JStr "a") _ eq_refl eq_refl).
Defined.

(** * Further properties of [http.py] *)

(** ** The session manager: [_open] and [close] *)

(** X1.  A second [_open] never replaces the session: opening with one token
    and then with another ends exactly as the first opening alone, so the
    token of the second call is not used.  With the lock free the session is
    open afterwards, and its [Authorization] header is the one it had when it
    was already open, the new bearer token otherwise. *)
Theorem open_is_idempotent first second w :
  (_open first ;; _open second) w = _open first w
  /\ (_session_lock (self w) = false ->
      let w' := snd (_open first w) in
      fst (_open first w) = Returned tt
      /\ is_open (self w') = true
      /\ _session_lock (self w') = false
      /\ authorization w' = (if is_open (self w) then authorization w
                             else Some ("Bearer " +:+ first))).
Proof.
  destruct w as [[cid sec tok ses lock] wi sl di pr wa ti].
  destruct lock; [split; [reflexivity|discriminate]|].
  destruct ses as [[hs [|]]|]; split; try reflexivity; intros _; now repeat split.
Qed.

Lemma open_is_idempotent_witness :
  let w' := snd ((_open "first" ;; _open "second") fresh_world) in
  _session_lock (self fresh_world) = false
  /\ is_open (self w') = true
  /\ authorization w' = Some "Bearer first".
Proof.
  destruct (open_is_idempotent "first" "second" fresh_world) as [Hsame Hopen].
  destruct (Hopen eq_refl) as (_ & Hlive & _ & Hauth).
  rewrite Hsame. now repeat split.
Defined.

(** X2.  [close] with the lock free returns [True] and leaves the client not
    open: an open session is dropped, anything else is left as it is.
    Closing again changes nothing, and an [_open] after it builds a new
    session from the new token alone. *)
Theorem close_drops_the_session w :
  _session_lock (self w) = false ->
  let w' := snd (close w) in
  fst (close w) = Returned true
  /\ is_open (self w') = false
  /\ __session (self w') = (if is_open (self w) then None else __session (self w))
  /\ _session_lock (self w') = false
  /\ close w' = (Returned true, w')
  /\ (is_open (self w) = true ->
      forall token,
        __session (self (snd (_open token w')))
        = Some {| headers := <["Content-Type" := "application/json"]>
                               (<["Authorization" := "Bearer " +:+ token]>
                                  (<["Client-ID" := _client_id (self w)]> ∅));
                  closed := false |}).
Proof.
  destruct w as [[cid sec tok ses lock] wi sl di pr wa ti]. cbn [self _session_lock].
  intros ->. destruct ses as [[hs [|]]|]; cbn; repeat split; try discriminate.
Qed.

Lemma close_drops_the_session_witness :
  let w' := snd (close sample_world) in
  _session_lock (self sample_world) = false
  /\ fst (close sample_world) = Returned true
  /\ __session (self w') = None
  /\ authorization (snd (_open "next" w')) = Some "Bearer next".
Proof.
  destruct (close_drops_the_session sample_world eq_refl) as (Hret & _ & Hses & _ & _ & Hopen).
  split; [reflexivity|]. split; [exact Hret|]. split; [exact Hses|].
  unfold authorization. now rewrite (Hopen eq_refl "next").
Defined.

(** ** The pipeline without a session, and how far it goes with one *)

Lemma _request_for_no_session env counts route kwargs w :
  __session (self w) = None -> counts <> [] ->
  _request_for env counts route kwargs w = (Raised (PyError AttributeError), w).
Proof.
  intros Hs Hne. destruct counts as [|count rest]; [easy|].
  cbn [_request_for]. unfold try_except, bind, session_request. now rewrite Hs.
Qed.

(** X3.  A client that has no session (never opened, or closed) sends
    nothing: [_request], [request], the three accessors and a non-empty
    [subscribe] all end with the built-in [AttributeError] in the world they
    started from; [get_stream] does not turn it into [None]. *)
Theorem no_session_no_request env fuel route kwargs w :
  __session (self w) = None ->
  _request env route kwargs w = (Raised (PyError AttributeError), w)
  /\ request env (S fuel) route kwargs w = (Raised (PyError AttributeError), w)
  /\ get_client env (S fuel) w = (Raised (PyError AttributeError), w)
  /\ (forall broadcaster_id,
         get_channel env (S fuel) broadcaster_id w = (Raised (PyError AttributeError), w))
  /\ (forall user_id,
         get_stream env (S fuel) user_id w = (Raised (PyError AttributeError), w))
  /\ (forall user_id session_id subscription rest,
         subscribe env (S fuel) user_id session_id (subscription :: rest) w
         = (Raised (PyError AttributeError), w)).
Proof.
  intros Hs.
  assert (H_request : forall r k, _request env r k w = (Raised (PyError AttributeError), w)).
  { intros r k. apply _request_for_no_session; [exact Hs|discriminate]. }
  assert (Hrequest : forall r k,
             request env (S fuel) r k w = (Raised (PyError AttributeError), w)).
  { intros r k. apply request_other_failure; [apply H_request|discriminate]. }
  split; [apply H_request|]. split; [apply Hrequest|].
  split; [now rewrite get_client_unwraps, Hrequest|].
  split; [intros b; now rewrite get_channel_unwraps, Hrequest|].
  split; [intros u; now rewrite get_stream_unwraps, Hrequest|].
  intros u sid sub rest. unfold subscribe, bind.
  now rewrite subscribe_for_one, Hrequest.
Qed.

Lemma no_session_no_request_witness :
  __session (self fresh_world) = None
  /\ get_stream (scripted [Response 200 JNull]) 1 "141981764" fresh_world
     = (Raised (PyError AttributeError), fresh_world).
Proof.
  split; [reflexivity|].
  destruct (no_session_no_request (scripted [Response 200 JNull]) 0 sample_route NoKwargs
              fresh_world eq_refl) as (_ & _ & _ & _ & Hstream & _).
  apply Hstream.
Defined.

Lemma _request_for_bounded env route kwargs s counts :
  forall w,
    __session (self w) = Some s -> closed s = false ->
    exists k, (k <= length counts)%nat /\ (counts <> [] -> (1 <= k)%nat)
              /\ wire (snd (_request_for env counts route kwargs w))
                 = wire w ++ replicate k (outgoing route kwargs s).
Proof.
  induction counts as [|count rest IH]; intros w Hs Hc.
  - exists O. cbn. split; [lia|]. split; [easy|]. now rewrite app_nil_r.
  - destruct (net env (length (wire w))) as [status body| | |] eqn:Hnet;
      [| |exists 1%nat;
          rewrite (_request_for_interrupted env route kwargs count rest w s _ Hs Hc)
            by (rewrite Hnet; reflexivity);
          cbn [length]; split; [lia|]; split; [lia|]; reflexivity ..].
    + rewrite (_request_for_response env route kwargs count rest w s status body Hs Hc Hnet).
      destruct (on_response_outcome status body (transmit route kwargs s w)) as (o & -> & _).
      exists 1%nat. cbn [length]. split; [lia|]. split; [lia|].
      now destruct (status =? 400).
    + rewrite (_request_for_failure env route kwargs count rest w s Hs Hc Hnet).
      match goal with |- context [_request_for env rest route kwargs ?w1] =>
        destruct (IH w1) as (k & Hk & _ & Hwire);
        [now destruct (3 >=? count) | exact Hc |];
        assert (Hw1 : wire w1 = wire w ++ [outgoing route kwargs s])
          by now destruct (3 >=? count)
      end.
      exists (S k). cbn [length]. split; [lia|]. split; [lia|].
      rewrite Hwire, Hw1, <- app_assoc. reflexivity.
Qed.

(** X4.  Whatever the network does, [_request] on a live session puts the
    same request on the wire at least once and at most three times, and
    touches nothing of the client object, the notifications or the warnings. *)
Theorem request_attempts_are_bounded env route kwargs w s :
  __session (self w) = Some s -> closed s = false ->
  let w' := snd (_request env route kwargs w) in
  (exists k, (1 <= k <= 3)%nat /\ wire w' = wire w ++ replicate k (outgoing route kwargs s))
  /\ self w' = self w
  /\ dispatched w' = dispatched w
  /\ warnings w' = warnings w.
Proof.
  intros Hs Hc w'.
  destruct (_request_for_bounded env route kwargs s (range 1 4) w Hs Hc) as (k & Hk & Hk1 & Hwire).
  destruct (sending__request env route kwargs w) as [Hself Hdisp Hwarn _ _ _].
  split; [|now repeat split].
  exists k. split; [|exact Hwire]. rewrite range_1_4 in Hk, Hk1. cbn in Hk.
  split; [now apply Hk1 | exact Hk].
Qed.

Lemma request_attempts_are_bounded_witness :
  let w' := snd (_request (scripted [TransportFailure; Response 404 JNull]) sample_route
                   NoKwargs sample_world) in
  (__session (self sample_world) = Some sample_session /\ closed sample_session = false)
  /\ length (wire w') = 2%nat
  /\ self w' = self sample_world.
Proof.
  intros w'. split; [now split|].
  destruct (request_attempts_are_bounded
              (scripted [TransportFailure; Response 404 JNull]) sample_route NoKwargs
              sample_world sample_session eq_refl eq_refl) as (_ & Hself & _).
  split; [reflexivity | exact Hself].
Defined.

Lemma on_response_not_401 status body w :
  status <> 401 ->
  (exists b, fst (on_response status body w) = Returned b)
  \/ (exists e, fst (on_response status body w) = Raised e
                /\ typed e = true /\ forall m, e <> Unauthorized m).
Proof.
  intros Hne. unfold on_response.
  case_bool_decide; [left; now eexists|]. right.
  destruct (status =? 400); [now eexists|].
  destruct (status =? 401) eqn:E; [lia|].
  destruct (status =? 403); [now eexists|].
  destruct (status =? 404); [now eexists|].
  destruct ((500 <=? status) && (status <? 600)); now eexists.
Qed.

(** X5.  A response whose status is not 401 ends [request] with that single
    attempt: the outcome is that of [_request], exactly one request is on the
    wire, no validation follows, and a failure is a typed error other than
    [Unauthorized]. *)
Theorem request_passes_other_statuses env fuel route kwargs w s status body :
  __session (self w) = Some s -> closed s = false ->
  net env (length (wire w)) = Response status body ->
  status <> 401 ->
  let out := request env (S fuel) route kwargs w in
  out = _request env route kwargs w
  /\ wire (snd out) = wire w ++ [outgoing route kwargs s]
  /\ self (snd out) = self w
  /\ (fst out = Returned body
      \/ exists e, fst out = Raised e /\ typed e = true /\ forall m, e <> Unauthorized m).
Proof.
  intros Hs Hc Hnet Hne out.
  pose proof (_request_response env route kwargs w s status body Hs Hc Hnet) as Hreq.
  destruct (on_response_outcome status body (transmit route kwargs s w)) as (o & Ho & Hk).
  assert (Hout : out = _request env route kwargs w).
  { subst out. destruct (on_response_not_401 status body (transmit route kwargs s w) Hne)
      as [[b Hb] | (e & He & _ & Hnot)].
    - rewrite Ho in Hb. cbn in Hb. subst o.
      etransitivity; [apply request_returned; rewrite Hreq; exact Ho|].
      now rewrite Hreq, Ho.
    - rewrite Ho in He. cbn in He. subst o.
      etransitivity; [apply request_other_failure; [rewrite Hreq; exact Ho | exact Hnot]|].
      now rewrite Hreq, Ho. }
  split; [exact Hout|]. rewrite Hout, Hreq.
  split; [rewrite Ho; cbn; now destruct (status =? 400)|].
  split; [rewrite Ho; cbn; now destruct (status =? 400)|].
  destruct (on_response_not_401 status body (transmit route kwargs s w) Hne)
    as [[b Hb] | He]; [left | now right].
  rewrite Ho in Hb |- *. cbn in Hb |- *. subst o. now rewrite Hk.
Qed.

Lemma request_passes_other_statuses_witness :
  let out := request (scripted [Response 403 JNull]) 1 sample_route NoKwargs sample_world in
  (__session (self sample_world) = Some sample_session /\ closed sample_session = false
   /\ net (scripted [Response 403 JNull]) 0 = Response 403 JNull /\ 403 <> 401)
  /\ fst out = Raised (Forbidden None)
  /\ length (wire (snd out)) = 1%nat.
Proof.
  intros out. split; [now repeat split|].
  destruct (request_passes_other_statuses (scripted [Response 403 JNull]) 0 sample_route
              NoKwargs sample_world sample_session 403 JNull eq_refl eq_refl eq_refl
              ltac:(discriminate)) as (_ & Hwire & _).
  fold out in Hwire. rewrite Hwire. now split.
Defined.

(** ** The token cycle: what it keeps, and when it does not end *)

(** X6.  However they end, [request], [_validate_token] and
    [_generate_token] leave the client id, the client secret and the refresh
    token as they were, keep an existing session (open or closed as before),
    only add to the wire, dispatch nothing but [refresh_token], and log no
    warning. *)
Theorem token_cycle_keeps_the_client env fuel route kwargs generate w :
  steady w (snd (request env fuel route kwargs w))
  /\ steady w (snd (_validate_token env fuel generate w))
  /\ steady w (snd (_generate_token env fuel w)).
Proof.
  split; [apply steady_request|].
  split; [apply steady__validate_token | apply steady__generate_token].
Qed.

Section Relocking.

Context {A B : Type}.

Lemma relocks_ret (a : A) : relocks (ret a).
Proof. now intros w o w' [= _ <-] _. Qed.

Lemma relocks_raise e : relocks (@raise A e).
Proof. now intros w o w' [= _ <-] _. Qed.

Lemma relocks_out_of_fuel : relocks (@out_of_fuel A).
Proof. now intros w o w' [= <- _] H. Qed.

Lemma relocks_lift (r : Exn + A) : relocks (lift r).
Proof. destruct r; [apply relocks_raise | apply relocks_ret]. Qed.

Lemma relocks_gets (f : HTTPClient -> A) : relocks (gets f).
Proof. now intros w o w' [= _ <-] _. Qed.

Lemma relocks_bind (m : M A) (k : A -> M B) :
  relocks m -> (forall a, relocks (k a)) -> relocks (bind m k).
Proof.
  intros Hm Hk w o w'. unfold bind.
  destruct (m w) as [[a|e| |] w1] eqn:E.
  - intros H Ho. rewrite (Hk a w1 o w' H Ho). now apply (Hm w _ _ E).
  - intros [= <- <-] _. now apply (Hm w _ _ E).
  - now intros [= <- _] H.
  - now intros [= <- _] H.
Qed.

Lemma relocks_try (m : M A) (handler : Exn -> option (M A)) :
  relocks m -> (forall e h, handler e = Some h -> relocks h) ->
  relocks (try_except m handler).
Proof.
  intros Hm Hh w o w'. unfold try_except.
  destruct (m w) as [[a|e| |] w1] eqn:E.
  - intros [= <- <-] _. now apply (Hm w _ _ E).
  - destruct (handler e) as [h|] eqn:Eh.
    + intros H Ho. rewrite (Hh e h Eh w1 o w' H Ho). now apply (Hm w _ _ E).
    + intros [= <- <-] _. now apply (Hm w _ _ E).
  - now intros [= <- _] H.
  - now intros [= <- _] H.
Qed.

(** [async with] gives the lock back whatever its body did with it. *)
Lemma relocks_with_lock (m : M A) : relocks (with_lock m).
Proof.
  intros w o w'. unfold with_lock.
  destruct (_session_lock (self w)) eqn:El; [now intros [= <- _] H|].
  destruct (m (with_self (set_lock true) w)) as [[a|e| |] w1].
  - now intros [= <- <-] _.
  - now intros [= <- <-] _.
  - now intros [= <- _] H.
  - now intros [= <- _] H.
Qed.

End Relocking.

Lemma relocks__request env route kwargs : relocks (_request env route kwargs).
Proof.
  intros w o w' H _.
  pose proof (sending_self _ _ _ _ (sending__request env route kwargs w)) as Hself.
  rewrite H in Hself. cbn in Hself. now rewrite Hself.
Qed.

Lemma relocks_headers_update key value : relocks (headers_update key value).
Proof.
  intros w o w'. unfold headers_update.
  destruct (__session (self w)); now intros [= _ <-] _.
Qed.

Lemma relocks_dispatch name args : relocks (_dispatch name args).
Proof. now intros w o w' [= _ <-] _. Qed.

Ltac relock_step :=
  first
    [ assumption
    | apply relocks__request | apply relocks_headers_update | apply relocks_dispatch
    | apply relocks_with_lock
    | apply relocks_ret | apply relocks_raise | apply relocks_out_of_fuel
    | apply relocks_lift | apply relocks_gets
    | apply relocks_bind
    | apply relocks_try
    | match goal with
      | |- forall a, relocks _ => intros ?
      | |- forall e h, _ = Some h -> relocks _ => intros ? ? ?
      | H : match ?e with _ => _ end = Some _ |- _ =>
          destruct e; try discriminate H; injection H as <-
      | |- relocks (if ?b then _ else _) => destruct b
      | |- relocks (match ?x with _ => _ end) => destruct x
      end ].

(** X7.  No call of the token cycle that returns or raises leaves the session
    lock changed: a refresh releases it also when the exchange fails, and a
    call that found it held by someone else leaves it held. *)
Theorem token_cycle_gives_the_lock_back env fuel :
  (forall route kwargs, relocks (request env fuel route kwargs))
  /\ (forall generate, relocks (_validate_token env fuel generate))
  /\ relocks (_generate_token env fuel).
Proof.
  induction fuel as [|fuel (IHr & IHv & IHg)].
  - split; [|split]; intros; apply relocks_out_of_fuel.
  - split; [|split].
    + intros route kwargs. cbn [request].
      repeat relock_step; first [apply IHv | apply IHr].
    + intros generate. cbn [_validate_token].
      repeat relock_step; first [apply IHv | apply IHg].
    + cbn [_generate_token]. repeat relock_step.
Qed.

Lemma token_cycle_gives_the_lock_back_witness :
  let out := _generate_token (scripted [Response 400 JNull]) 2 sample_world in
  fst out = Raised BadRequest /\ _session_lock (self (snd out)) = false.
Proof.
  intros out. split; [reflexivity|].
  destruct (token_cycle_gives_the_lock_back (scripted [Response 400 JNull]) 2) as (_ & _ & Hg).
  apply (Hg sample_world (Raised BadRequest) (snd out)); [reflexivity | exact I].
Defined.

Section AlwaysUnauthorized.

Variable env : Env.
Hypothesis always_401 : forall k, exists body, net env k = Response 401 body.

Lemma _request_401 route kwargs w s :
  __session (self w) = Some s -> closed s = false ->
  _request env route kwargs w = (Raised (Unauthorized None), transmit route kwargs s w).
Proof.
  intros Hs Hc. destruct (always_401 (length (wire w))) as [body Hnet].
  now rewrite (_request_response env route kwargs w s 401 body Hs Hc Hnet).
Qed.

(** Under a held lock the refresh is skipped, so the validation that asked
    for it comes round again, without end. *)
Lemma _validate_token_spins fuel :
  forall w s,
    __session (self w) = Some s -> closed s = false ->
    refreshable (self w) = true -> _session_lock (self w) = true ->
    fst (_validate_token env fuel true w) = OutOfFuel.
Proof.
  induction fuel as [|fuel IH]; intros w s Hs Hc Hcred Hlock; [reflexivity|].
  rewrite (_validate_token_unauthorized env fuel true w None _ (_request_401 _ _ w s Hs Hc)).
  change (self (transmit validate_route NoKwargs s w)) with (self w).
  pose proof Hcred as Hboth. unfold refreshable in Hboth.
  apply andb_true_iff in Hboth as [Ht Hsec]. rewrite Ht, Hsec. cbn [andb].
  destruct fuel as [|fuel]; [reflexivity|].
  rewrite _generate_token_skipped by (right; right; exact Hlock).
  now apply (IH _ s).
Qed.

Lemma request_spins fuel route kwargs w s :
  __session (self w) = Some s -> closed s = false ->
  refreshable (self w) = true -> _session_lock (self w) = true ->
  fst (request env fuel route kwargs w) = OutOfFuel.
Proof.
  intros Hs Hc Hcred Hlock. destruct fuel as [|fuel]; [reflexivity|].
  rewrite (request_unauthorized env fuel route kwargs w None _ (_request_401 _ _ w s Hs Hc)).
  pose proof (_validate_token_spins fuel (transmit route kwargs s w) s Hs Hc Hcred Hlock) as H.
  destruct (_validate_token env fuel true (transmit route kwargs s w)) as [[v|e| |] w2];
    try discriminate H. reflexivity.
Qed.

Lemma truthy_nonempty o : truthy o = true -> exists s, o = Some s /\ s <> "".
Proof.
  destruct o as [s|]; [|discriminate]. cbn. intros H. exists s. split; [reflexivity|].
  apply negb_true_iff in H. now apply String.eqb_neq.
Qed.

Lemma _generate_token_spins fuel w s :
  __session (self w) = Some s -> closed s = false ->
  refreshable (self w) = true -> _session_lock (self w) = false ->
  fst (_generate_token env fuel w) = OutOfFuel.
Proof.
  intros Hs Hc Hcred Hlock. destruct fuel as [|fuel]; [reflexivity|].
  pose proof Hcred as Hboth. unfold refreshable in Hboth.
  apply andb_true_iff in Hboth as [Ht Hsec].
  destruct (truthy_nonempty _ Ht) as (rt & Hrt & Hne1).
  destruct (truthy_nonempty _ Hsec) as (cs & Hcs & Hne2).
  rewrite (_generate_token_exchange env fuel w rt cs Hrt Hcs Hne1 Hne2 Hlock).
  pose proof (request_spins fuel token_route (token_params env (self w) rt cs)
                (with_self (set_lock true) w) s Hs Hc Hcred eq_refl) as H.
  destruct (request env fuel token_route _ (with_self (set_lock true) w)) as [[v|e| |] w2];
    try discriminate H. reflexivity.
Qed.

Lemma _validate_token_never_ends fuel w s :
  __session (self w) = Some s -> closed s = false ->
  refreshable (self w) = true ->
  fst (_validate_token env fuel true w) = OutOfFuel.
Proof.
  intros Hs Hc Hcred. destruct (_session_lock (self w)) eqn:Hlock;
    [now apply (_validate_token_spins fuel w s)|].
  destruct fuel as [|fuel]; [reflexivity|].
  rewrite (_validate_token_unauthorized env fuel true w None _ (_request_401 _ _ w s Hs Hc)).
  change (self (transmit validate_route NoKwargs s w)) with (self w).
  pose proof Hcred as Hboth. unfold refreshable in Hboth.
  apply andb_true_iff in Hboth as [Ht Hsec]. rewrite Ht, Hsec. cbn [andb].
  pose proof (_generate_token_spins fuel (transmit validate_route NoKwargs s w) s
                Hs Hc Hcred Hlock) as H.
  destruct (_generate_token env fuel (transmit validate_route NoKwargs s w))
    as [[v|e| |] w2]; try discriminate H. reflexivity.
Qed.

End AlwaysUnauthorized.

(** X8.  With a refresh token and a client secret in place, a provider that
    answers every request with 401 keeps [request] busy for ever: the refresh
    it starts is itself answered 401, the validation inside it finds the lock
    held, skips the refresh and validates again, and so on.  No amount of
    fuel brings the call to an end. *)
Theorem request_never_ends_on_401 env fuel route kwargs w s :
  (forall k, exists body, net env k = Response 401 body) ->
  __session (self w) = Some s -> closed s = false ->
  refreshable (self w) = true ->
  fst (request env fuel route kwargs w) = OutOfFuel.
Proof.
  intros Hnet Hs Hc Hcred. destruct fuel as [|fuel]; [reflexivity|].
  rewrite (request_unauthorized env fuel route kwargs w None _
             (_request_401 env Hnet _ _ w s Hs Hc)).
  pose proof (_validate_token_never_ends env Hnet fuel (transmit route kwargs s w) s
                Hs Hc Hcred) as H.
  destruct (_validate_token env fuel true (transmit route kwargs s w)) as [[v|e| |] w2];
    try discriminate H. reflexivity.
Qed.

Lemma request_never_ends_on_401_witness :
  let env := answering (Response 401 JNull) in
  let out := request env 12 sample_route NoKwargs sample_world in
  ((forall k, exists body, net env k = Response 401 body)
   /\ __session (self sample_world) = Some sample_session
   /\ closed sample_session = false
   /\ refreshable (self sample_world) = true)
  /\ fst out = OutOfFuel
  /\ (sent_url <$> wire (snd out))
     = [url sample_route; validate_url; token_url] ++ replicate 8 validate_url.
Proof.
  intros env out.
  assert (Hnet : forall k, exists body, net env k = Response 401 body)
    by (intros k; now exists JNull).
  split; [now repeat split|].
  split; [|reflexivity].
  exact (request_never_ends_on_401 env 12 sample_route NoKwargs sample_world sample_session
           Hnet eq_refl eq_refl eq_refl).
Defined.

Lemma _request_dead_session env route kwargs w :
  (forall s, __session (self w) = Some s -> closed s = true) ->
  exists kind, _request env route kwargs w = (Raised (PyError kind), w).
Proof.
  intros Hdead. unfold _request. rewrite range_1_4. cbn [_request_for].
  unfold try_except, bind, session_request.
  destruct (__session (self w)) as [s|]; [|now eexists].
  rewrite (Hdead s eq_refl). now eexists.
Qed.

(** A [request] that returns has found a live session. *)
Lemma request_returned_live env fuel route kwargs w data w' :
  request env fuel route kwargs w = (Returned data, w') ->
  exists s, __session (self w) = Some s /\ closed s = false.
Proof.
  intros H. destruct fuel as [|fuel]; [discriminate H|].
  destruct (__session (self w)) as [s|] eqn:Hs.
  - destruct (closed s) eqn:Hc; [|now exists s].
    destruct (_request_dead_session env route kwargs w) as [kind Hk].
    { intros s0 Hs0. congruence. }
    rewrite (request_other_failure env fuel route kwargs w _ _ Hk) in H by discriminate.
    discriminate H.
  - destruct (_request_dead_session env route kwargs w) as [kind Hk].
    { intros s0 Hs0. congruence. }
    rewrite (request_other_failure env fuel route kwargs w _ _ Hk) in H by discriminate.
    discriminate H.
Qed.

(** X9.  Whenever [_generate_token] returns a token pair, that pair holds an
    access token, the session's [Authorization] header is the new bearer
    token, the last notification is [refresh_token] with the access token,
    the lock is free, and the next [_request] goes out through that session,
    with the new header. *)
Theorem returned_token_is_installed env fuel w refresh w' :
  _generate_token env fuel w = (Returned (Some refresh), w') ->
  exists access_token s',
    getitem refresh "access_token" = inr access_token
    /\ __session (self w') = Some s'
    /\ headers s' !! "Authorization" = Some ("Bearer " +:+ str env access_token)
    /\ (exists earlier, dispatched w' = earlier ++ [("refresh_token", [access_token])])
    /\ _session_lock (self w') = false
    /\ forall route kwargs,
        exists rest, wire (snd (_request env route kwargs w'))
                     = wire w' ++ outgoing route kwargs s' :: rest.
Proof.
  destruct fuel as [|fuel]; [discriminate|]. intros H.
  destruct (truthy (_refresh_token (self w))) eqn:Ht;
    [|rewrite _generate_token_skipped in H by (left; exact Ht); discriminate H].
  destruct (truthy (_client_secret (self w))) eqn:Hsec;
    [|rewrite _generate_token_skipped in H by (right; left; exact Hsec); discriminate H].
  destruct (_session_lock (self w)) eqn:Hlock;
    [rewrite _generate_token_skipped in H by (right; right; exact Hlock); discriminate H|].
  destruct (truthy_nonempty _ Ht) as (rt & Hrt & Hne1).
  destruct (truthy_nonempty _ Hsec) as (cs & Hcs & Hne2).
  rewrite (_generate_token_exchange env fuel w rt cs Hrt Hcs Hne1 Hne2 Hlock) in H.
  destruct (request env fuel token_route _ (with_self (set_lock true) w))
    as [[refresh0|e| |] w2] eqn:Hreq; try discriminate H.
  destruct (getitem refresh0 "access_token") as [e|access_token] eqn:Htok; [discriminate H|].
  destruct (__session (self w2)) as [s2|] eqn:Hs2; [|discriminate H].
  injection H as <- <-.
  destruct (request_returned_live _ _ _ _ _ _ _ Hreq) as (s & Hs & Hc).
  pose proof (steady_request env fuel token_route
                (token_params env (self w) rt cs) (with_self (set_lock true) w)) as Hst.
  rewrite Hreq in Hst. destruct (steady_session _ _ Hst s Hs) as (s2' & Hs2' & Hc2).
  cbn [snd] in Hs2'. rewrite Hs2 in Hs2'. injection Hs2' as <-.
  exists access_token. eexists. split; [exact Htok|]. split; [reflexivity|].
  split; [apply lookup_insert_eq|]. split; [now eexists|]. split; [reflexivity|].
  intros route kwargs. apply _request_first_sent; [reflexivity|]. cbn. congruence.
Qed.

Lemma returned_token_is_installed_witness :
  let refresh := obj [("access_token", JStr "new")] in
  let out := _generate_token (scripted [Response 200 refresh]) 2 sample_world in
  fst out = Returned (Some refresh)
  /\ authorization (snd out) = Some "Bearer new".
Proof.
  intros refresh out. split; [reflexivity|].
  destruct (returned_token_is_installed (scripted [Response 200 refresh]) 2 sample_world
              refresh (snd out) eq_refl)
    as (tok & s' & Htok & Hs' & Hauth & _).
  injection Htok as <-. unfold authorization. now rewrite Hs', Hauth.
Defined.

(** ** [open_session] from start to end *)

(** [open_session] on a client without a session, once the validation has
    been answered 200. *)
Lemma open_session_validated env fuel token refresh_token w validation :
  __session (self w) = None -> _session_lock (self w) = false ->
  net env (length (wire w)) = Response 200 validation ->
  let session := new_session (_client_id (self w)) token in
  let opened :=
    transmit validate_route NoKwargs session
      (with_self (fun c => set_refresh_token refresh_token (set_session (Some session) c)) w) in
  open_session env (S fuel) token refresh_token w =
    match getitem validation "expires_in" with
    | inl e => (Raised e, opened)
    | inr expires_in =>
        (Returned validation,
         if eq_zero expires_in && bool_decide (refresh_token <> None)
         then snd (warning removed_warning opened) else opened)
    end.
Proof.
  destruct w as [[cid sec tok ses lock] wi sl di pr wa ti].
  cbn [self __session _session_lock wire _client_id].
  intros -> -> Hnet. set (session := new_session cid token).
  unfold open_session. unfold bind at 1.
  cbn [_open with_lock gets bind is_open self __session _session_lock negb with_self
       set_lock modify set_session fst snd _client_id].
  unfold bind at 1. cbn [modify with_self set_refresh_token self fst snd].
  unfold bind at 1.
  match goal with |- context [_validate_token env (S fuel) true ?w1] =>
    rewrite (_validate_token_ok env fuel true w1 session validation eq_refl eq_refl Hnet)
  end.
  unfold bind at 1.
  destruct (getitem validation "expires_in") as [e|expires_in]; [reflexivity|].
  cbn [lift ret]. unfold bind at 1.
  destruct (eq_zero expires_in); [|reflexivity].
  destruct refresh_token; reflexivity.
Qed.

(** X10.  On a client without a session and with the lock free,
    [open_session] builds the session from the client id and the token, stores
    the refresh token and sends one validation request through the new
    session.  When that is answered 200 with a validation that holds
    [expires_in], the validation is returned; the warning is logged exactly
    when [expires_in] is 0 and a refresh token was given.  When the
    validation does not hold [expires_in], the call ends with the built-in
    error of the lookup and the session stays open. *)
Theorem open_session_opens_and_validates env fuel token refresh_token w validation :
  __session (self w) = None -> _session_lock (self w) = false ->
  net env (length (wire w)) = Response 200 validation ->
  let session := new_session (_client_id (self w)) token in
  let out := open_session env (S fuel) token refresh_token w in
  __session (self (snd out)) = Some session
  /\ _refresh_token (self (snd out)) = refresh_token
  /\ _session_lock (self (snd out)) = false
  /\ wire (snd out) = wire w ++ [outgoing validate_route NoKwargs session]
  /\ (forall expires_in,
         getitem validation "expires_in" = inr expires_in ->
         fst out = Returned validation
         /\ warnings (snd out)
            = warnings w ++ (if eq_zero expires_in && bool_decide (refresh_token <> None)
                             then [removed_warning] else []))
  /\ (forall e, getitem validation "expires_in" = inl e ->
                fst out = Raised e /\ warnings (snd out) = warnings w).
Proof.
  intros Hs Hlock Hnet session out. subst out.
  rewrite (open_session_validated env fuel token refresh_token w validation Hs Hlock Hnet).
  fold session.
  destruct (getitem validation "expires_in") as [e|expires_in].
  - do 2 (split; [reflexivity|]). split; [exact Hlock|]. split; [reflexivity|]. split.
    + intros x Hx. discriminate Hx.
    + intros e0 [= <-]. now split.
  - destruct (eq_zero expires_in && bool_decide (refresh_token <> None)) eqn:E;
      do 2 (split; [reflexivity|]); (split; [exact Hlock|]); (split; [reflexivity|]);
      (split; [|intros e0 He0; discriminate He0]);
      intros x [= <-]; rewrite E; (split; [reflexivity|]); cbn;
      rewrite ?app_nil_r; reflexivity.
Qed.

Lemma open_session_opens_and_validates_witness :
  let validation := obj [("expires_in", JNum 3600)] in
  let out := open_session (scripted [Response 200 validation]) 1 "token" (Some "refresh")
               fresh_world in
  (__session (self fresh_world) = None /\ _session_lock (self fresh_world) = false)
  /\ fst out = Returned validation
  /\ authorization (snd out) = Some "Bearer token"
  /\ warnings (snd out) = [].
Proof.
  intros validation out. split; [now split|].
  destruct (open_session_opens_and_validates (scripted [Response 200 validation]) 0 "token"
              (Some "refresh") fresh_world validation eq_refl eq_refl eq_refl)
    as (Hs & _ & _ & _ & Hok & _).
  destruct (Hok (JNum 3600) eq_refl) as [Hout Hwarn].
  fold out in Hs, Hout, Hwarn. unfold authorization. rewrite Hs.
  split; [exact Hout|]. split; [reflexivity | exact Hwarn].
Defined.

(** ** [subscribe] when every submission is accepted *)

Lemma _request_accepted env route kwargs w s status body :
  __session (self w) = Some s -> closed s = false ->
  net env (length (wire w)) = Response status body ->
  status = 200 \/ status = 202 ->
  _request env route kwargs w = (Returned body, transmit route kwargs s w).
Proof.
  intros Hs Hc Hnet Hok.
  rewrite (_request_response env route kwargs w s status body Hs Hc Hnet).
  unfold on_response. now destruct Hok as [-> | ->].
Qed.

Lemma subscribe_for_accepted env fuel user_id session_id s subscriptions :
  forall w,
    __session (self w) = Some s -> closed s = false ->
    (forall k, (k < length subscriptions)%nat ->
               exists status body,
                 net env (length (wire w) + k)%nat = Response status body
                 /\ (status = 200 \/ status = 202)) ->
    exists w',
      subscribe_for env (S fuel) user_id session_id subscriptions w = (Returned tt, w')
      /\ self w' = self w
      /\ dispatched w' = dispatched w
      /\ wire w' = wire w ++
                   ((fun subscription =>
                       outgoing subscriptions_route
                         (JsonBody (subscription_data user_id session_id subscription)) s)
                      <$> subscriptions).
Proof.
  induction subscriptions as [|subscription rest IH]; intros w Hs Hc Hnet.
  - exists w. cbn. now rewrite app_nil_r.
  - destruct (Hnet O) as (status & body & Hnet0 & Hok); [cbn; lia|].
    rewrite Nat.add_0_r in Hnet0.
    rewrite subscribe_for_one.
    rewrite (request_returned env fuel _ _ w _ _
               (_request_accepted env _ _ w s status body Hs Hc Hnet0 Hok)).
    destruct (IH (transmit subscriptions_route
                    (JsonBody (subscription_data user_id session_id subscription)) s w))
      as (w' & Hsub & Hself & Hdisp & Hwire); [exact Hs | exact Hc | |].
    + intros k Hk. destruct (Hnet (S k)) as (st & b & Hk' & Hst); [cbn; lia|].
      exists st, b. split; [|exact Hst].
      rewrite length_wire_transmit. now replace (S (length (wire w)) + k)%nat
        with (length (wire w) + S k)%nat by lia.
    + exists w'. split; [exact Hsub|]. split; [exact Hself|]. split; [exact Hdisp|].
      rewrite Hwire, wire_transmit, <- app_assoc. reflexivity.
Qed.

(** X11.  When the provider accepts every submission (200 or 202),
    [subscribe] returns after posting one document per subscription to the
    subscriptions endpoint, in the order of the list, and dispatching [ready]
    as its only notification; an empty list sends nothing and still
    dispatches [ready]. *)
Theorem subscribe_submits_in_order env fuel user_id session_id subscriptions w s :
  __session (self w) = Some s -> closed s = false ->
  (forall k, (k < length subscriptions)%nat ->
             exists status body,
               net env (length (wire w) + k)%nat = Response status body
               /\ (status = 200 \/ status = 202)) ->
  let out := subscribe env (S fuel) user_id session_id subscriptions w in
  fst out = Returned tt
  /\ wire (snd out)
     = wire w ++ ((fun subscription =>
                     outgoing subscriptions_route
                       (JsonBody (subscription_data user_id session_id subscription)) s)
                    <$> subscriptions)
  /\ dispatched (snd out) = dispatched w ++ [ready]
  /\ self (snd out) = self w.
Proof.
  intros Hs Hc Hnet out.
  destruct (subscribe_for_accepted env fuel user_id session_id s subscriptions w Hs Hc Hnet)
    as (w' & Hsub & Hself & Hdisp & Hwire).
  subst out. unfold subscribe, bind. rewrite Hsub. cbn.
  now rewrite Hwire, Hdisp, Hself.
Qed.

Lemma subscribe_submits_in_order_witness :
  let env := answering (Response 202 JNull) in
  let out := subscribe env 1 "141981764" "session" sample_batch sample_world in
  (__session (self sample_world) = Some sample_session /\ closed sample_session = false)
  /\ fst out = Returned tt
  /\ length (wire (snd out)) = 3%nat
  /\ dispatched (snd out) = [ready].
Proof.
  intros env out. split; [now split|].
  destruct (subscribe_submits_in_order env 0 "141981764" "session" sample_batch sample_world
              sample_session eq_refl eq_refl) as (Hout & Hwire & Hdisp & _).
  { intros k _. exists 202, JNull. split; [reflexivity | now right]. }
  fold out in Hout, Hwire, Hdisp. rewrite Hout, Hwire, Hdisp. now repeat split.
Defined.

(** ** The background loop beyond its first sleep *)

Lemma Refresher_start env rounds fuel expires_in w :
  Refresher env rounds fuel expires_in w
  = Refresher_while env rounds fuel (clock env (ticks w))
      (JNum (if refreshable (self w) then expires_in else 3540 + 300))
      (snd (time env w)).
Proof.
  unfold Refresher. unfold bind at 1. cbn [time fst snd].
  unfold bind, gets, refreshable. cbn [self fst snd].
  now destruct (truthy (_refresh_token (self w)) && truthy (_client_secret (self w))).
Qed.

(** A round in which no refresh is made, because there is nothing to refresh
    with or because it is not due yet, in terms of how its validation
    request ends. *)
Lemma Refresher_round_validating env rounds fuel start_time x w :
  (refreshable (self w) = true -> (clock env (ticks w) - start_time >=? x - 300) = false) ->
  let due := clock env (ticks w) - start_time >=? x - 300 in
  let w2 := snd (time env (snd (sleep (Z.min (x - 300) 3540) w))) in
  let w3 := if due then snd (time env w2) else w2 in
  let start_time' := if due then clock env (S (ticks w)) else start_time in
  Refresher_while env (S rounds) (S fuel) start_time (JNum x) w =
    match _request env validate_route NoKwargs w3 with
    | (Returned validation, w4) =>
        match getitem validation "expires_in" with
        | inr expires_in => Refresher_while env rounds (S fuel) start_time' expires_in w4
        | inl e => (Raised e, w4)
        end
    | (Raised BadRequest, w4) =>
        Refresher_while env rounds (S fuel) start_time' (JNum x)
          (with_self (set_refresh_token None) (snd (warning disabled_warning w4)))
    | (Raised e, w4) => (Raised e, w4)
    | (Suspended, w4) => (Suspended, w4)
    | (OutOfFuel, w4) => (OutOfFuel, w4)
    end.
Proof.
  intros Hno due w2 w3 start_time'. subst w3 start_time' w2 due.
  assert (Hskip : forall w1, self w1 = self w ->
                             (clock env (ticks w) - start_time >=? x - 300) = true ->
                             _generate_token env (S fuel) w1 = (Returned None, w1)).
  { intros w1 Hw1 Hdue. apply _generate_token_skipped. rewrite Hw1.
    destruct (refreshable (self w)) eqn:Hcred; [specialize (Hno eq_refl); congruence|].
    unfold refreshable in Hcred. apply andb_false_iff in Hcred. tauto. }
  cbn [Refresher_while].
  unfold bind, try_except, sleep, time, lift, as_int, ret.
  cbn -[_generate_token _validate_token _request Refresher_while Z.min Z.sub Z.geb].
  destruct (clock env (ticks w) - start_time >=? x - 300) eqn:Hdue;
    cbn -[_generate_token _validate_token _request Refresher_while Z.min Z.sub Z.geb];
    rewrite ?Hskip by easy; rewrite _validate_token_plain;
    match goal with |- context [_request env validate_route NoKwargs ?w0] =>
      destruct (_request env validate_route NoKwargs w0) as [[validation|e| |] w4]
    end; try reflexivity; try (now destruct e);
    (destruct (getitem validation "expires_in") as [e|expires_in] eqn:Hget; [|reflexivity]);
    now destruct (getitem_error _ _ _ Hget) as [kind ->].
Qed.

#[local] Instance traces_grow_preorder : PreOrder traces_grow.
Proof.
  split.
  - intros w. split; exists []; now rewrite app_nil_r.
  - intros w1 w2 w3 [[a1 A1] [a2 A2] [a3 A3]] [[b1 B1] [b2 B2] [b3 B3]].
    split; eexists; [rewrite B1, A1 | rewrite B2, A2 | rewrite B3, A3];
      now rewrite <- app_assoc.
Qed.

Lemma steady_traces_grow w w' : steady w w' -> traces_grow w w'.
Proof.
  intros H. split.
  - apply (steady_wire _ _ H).
  - destruct (steady_dispatched _ _ H) as (l & Hl & _). now exists l.
  - exists []. now rewrite app_nil_r, (steady_warnings _ _ H).
Qed.

Lemma traces_grow_Refresher_while env rounds fuel :
  forall start_time expires_in,
    preserves traces_grow (Refresher_while env rounds fuel start_time expires_in).
Proof.
  induction rounds as [|rounds IH]; intros start_time expires_in;
    cbn [Refresher_while]; [repeat preserve_step|].
  repeat first
    [ apply IH
    | match goal with
      | |- preserves _ (sleep _) => intros w; split; exists []; now rewrite app_nil_r
      | |- preserves _ (time _) => intros w; split; exists []; now rewrite app_nil_r
      | |- preserves _ (warning ?m) =>
          intros w; split; [exists [] | exists [] | exists [m]];
          cbn; now rewrite ?app_nil_r
      | |- preserves _ (modify _) => intros w; split; exists []; now rewrite app_nil_r
      | |- preserves _ (_generate_token _ _) =>
          intros w; apply steady_traces_grow, steady__generate_token
      | |- preserves _ (_validate_token _ _ _) =>
          intros w; apply steady_traces_grow, steady__validate_token
      end
    | preserve_step ].
Qed.

Lemma on_response_rejected status body w :
  status <> 200 -> status <> 202 -> status <> 400 ->
  exists e, on_response status body w = (Raised e, w)
            /\ typed e = true /\ e <> BadRequest.
Proof.
  intros H200 H202 H400. unfold on_response.
  case_bool_decide as Hin; [apply success_status in Hin; lia|].
  destruct (status =? 400) eqn:E; [lia|].
  destruct (status =? 401); [now eexists|].
  destruct (status =? 403); [now eexists|].
  destruct (status =? 404); [now eexists|].
  destruct ((500 <=? status) && (status <? 600)); now eexists.
Qed.

Lemma on_response_400 body w :
  on_response 400 body w = (Raised BadRequest, snd (print body w)).
Proof. reflexivity. Qed.

Section RefresherRounds.

Variables (env : Env) (rounds fuel : nat) (expires_in : Z) (w : World) (s : ClientSession).
Hypothesis live : __session (self w) = Some s.
Hypothesis open : closed s = false.

(** The round makes no refresh: nothing to refresh with, or not due yet. *)
Hypothesis no_refresh :
  refreshable (self w) = true ->
  clock env (S (ticks w)) - clock env (ticks w) < expires_in - 300.

Let x : Z := if refreshable (self w) then expires_in else 3540 + 300.
Let w1 : World := snd (time env w).
Let due : bool := clock env (ticks w1) - clock env (ticks w) >=? x - 300.
Let w2 : World := snd (time env (snd (sleep (Z.min (x - 300) 3540) w1))).
Let w3 : World := if due then snd (time env w2) else w2.

Lemma first_round_world :
  self w3 = self w /\ wire w3 = wire w /\ warnings w3 = warnings w
  /\ slept w3 = slept w ++ [Z.min (x - 300) 3540].
Proof. unfold w3. now destruct due. Qed.

Lemma first_round :
  Refresher env (S rounds) (S fuel) expires_in w =
    match _request env validate_route NoKwargs w3 with
    | (Returned validation, w4) =>
        match getitem validation "expires_in" with
        | inr reported =>
            Refresher_while env rounds (S fuel)
              (if due then clock env (S (ticks w1)) else clock env (ticks w)) reported w4
        | inl e => (Raised e, w4)
        end
    | (Raised BadRequest, w4) =>
        Refresher_while env rounds (S fuel)
          (if due then clock env (S (ticks w1)) else clock env (ticks w)) (JNum x)
          (with_self (set_refresh_token None) (snd (warning disabled_warning w4)))
    | (Raised e, w4) => (Raised e, w4)
    | (Suspended, w4) => (Suspended, w4)
    | (OutOfFuel, w4) => (OutOfFuel, w4)
    end.
Proof.
  rewrite Refresher_start. fold x w1.
  apply (Refresher_round_validating env rounds fuel (clock env (ticks w)) x w1).
  change (self w1) with (self w). intros Hcred. specialize (no_refresh Hcred).
  unfold x. rewrite Hcred. change (ticks w1) with (S (ticks w)).
  rewrite Z.geb_leb. apply Z.leb_gt. exact no_refresh.
Qed.

End RefresherRounds.

(** X12.  A round of the loop that makes no refresh of its own (nothing to
    refresh with, or not due yet) and whose validation is answered 400 drops
    the refresh token all the same and logs the warning; the loop goes on,
    and from then on it sends validation requests only. *)
Theorem validation_400_disables_refresh env rounds fuel expires_in w s body :
  __session (self w) = Some s -> closed s = false ->
  (refreshable (self w) = true ->
   clock env (S (ticks w)) - clock env (ticks w) < expires_in - 300) ->
  net env (length (wire w)) = Response 400 body ->
  let out := Refresher env (S rounds) (S fuel) expires_in w in
  refreshable (self (snd out)) = false
  /\ (exists l, wire (snd out) = wire w ++ l /\ Forall validation_request l)
  /\ (exists later, warnings (snd out) = warnings w ++ disabled_warning :: later).
Proof.
  intros Hs Hc Hno Hnet out. subst out.
  rewrite (first_round env rounds fuel expires_in w Hno).
  destruct (first_round_world env expires_in w) as (Hself & Hwire & Hwarn & _).
  match goal with |- context [_request env validate_route NoKwargs ?w0] =>
    set (w3 := w0) in *;
    rewrite (_request_response env validate_route NoKwargs w3 s 400 body)
      by (rewrite ?Hself, ?Hwire; assumption)
  end.
  rewrite on_response_400. cbv beta iota.
  match goal with |- context [Refresher_while env rounds (S fuel) ?st ?e ?w5] =>
    pose proof (calm_Refresher_while env rounds (S fuel) st e w5 eq_refl)
      as [Hcred (l & Hl & Hall) _];
    destruct (traces_grow_Refresher_while env rounds (S fuel) st e w5) as [_ _ [later Hlater]];
    set (final := Refresher_while env rounds (S fuel) st e w5) in *
  end.
  split; [exact Hcred|]. split.
  - exists (outgoing validate_route NoKwargs s :: l). split.
    + rewrite Hl. cbn. rewrite Hwire, <- app_assoc. reflexivity.
    + constructor; [now split | exact Hall].
  - exists later. rewrite Hlater. cbn. rewrite Hwarn, <- app_assoc. reflexivity.
Qed.

Lemma validation_400_disables_refresh_witness :
  let env := scripted [Response 400 JNull; Response 200 (obj [("expires_in", JNum 9000)])] in
  let out := Refresher env 2 1 100000 sample_world in
  (__session (self sample_world) = Some sample_session /\ closed sample_session = false
   /\ refreshable (self sample_world) = true
   /\ clock env 1 - clock env 0 < 100000 - 300)
  /\ refreshable (self (snd out)) = false
  /\ warnings (snd out) = [disabled_warning]
  /\ (sent_url <$> wire (snd out)) = [validate_url; validate_url].
Proof.
  intros env out. split; [now repeat split|].
  destruct (validation_400_disables_refresh env 1 0 100000 sample_world sample_session JNull
              eq_refl eq_refl ltac:(reflexivity) eq_refl) as (Hcred & _ & _).
  split; [exact Hcred|]. now split.
Defined.

(** X13.  Only [BadRequest] is survived by the loop.  A round that makes no
    refresh of its own and whose validation is answered with any status but
    200, 202 and 400 ends the whole [Refresher] with the typed error of that
    status, after the one sleep and the one validation request of the round. *)
Theorem refresher_ends_on_failed_validation env rounds fuel expires_in w s status body :
  __session (self w) = Some s -> closed s = false ->
  (refreshable (self w) = true ->
   clock env (S (ticks w)) - clock env (ticks w) < expires_in - 300) ->
  net env (length (wire w)) = Response status body ->
  status <> 200 -> status <> 202 -> status <> 400 ->
  let out := Refresher env (S rounds) (S fuel) expires_in w in
  exists e,
    fst out = Raised e /\ typed e = true /\ e <> BadRequest
    /\ wire (snd out) = wire w ++ [outgoing validate_route NoKwargs s]
    /\ slept (snd out)
       = slept w ++ [Z.min ((if refreshable (self w) then expires_in else 3540 + 300) - 300)
                           3540]
    /\ self (snd out) = self w.
Proof.
  intros Hs Hc Hno Hnet H200 H202 H400 out. subst out.
  rewrite (first_round env rounds fuel expires_in w Hno).
  destruct (first_round_world env expires_in w) as (Hself & Hwire & Hwarn & Hslept).
  match goal with |- context [_request env validate_route NoKwargs ?w0] =>
    set (w3 := w0) in *;
    rewrite (_request_response env validate_route NoKwargs w3 s status body)
      by (rewrite ?Hself, ?Hwire; assumption);
    destruct (on_response_rejected status body (transmit validate_route NoKwargs s w3)
                H200 H202 H400) as (e & -> & Htyped & Hne)
  end.
  exists e. destruct e; try (now destruct Hne); cbn [fst snd transmit wire slept self];
    rewrite Hwire, Hslept, Hself; now repeat split.
Qed.

Lemma refresher_ends_on_failed_validation_witness :
  let env := scripted [Response 401 JNull] in
  let out := Refresher env 5 1 7200 bare_world in
  (__session (self bare_world) = Some sample_session /\ closed sample_session = false
   /\ refreshable (self bare_world) = false)
  /\ fst out = Raised (Unauthorized None)
  /\ slept (snd out) = [3540].
Proof.
  intros env out. split; [now repeat split|].
  destruct (refresher_ends_on_failed_validation env 4 0 7200 bare_world sample_session 401
              JNull eq_refl eq_refl ltac:(discriminate) eq_refl
              ltac:(discriminate) ltac:(discriminate) ltac:(discriminate))
    as (e & He & _ & _ & _ & Hslept & _).
  fold out in He, Hslept. split; [reflexivity | exact Hslept].
Defined.

(** A refresh whose exchange is answered 400: the body is printed, the lock is
    given back and [BadRequest] leaves [_generate_token]. *)
Lemma _generate_token_rejected env fuel w s refresh_token client_secret body :
  _refresh_token (self w) = Some refresh_token ->
  _client_secret (self w) = Some client_secret ->
  refresh_token <> "" -> client_secret <> "" ->
  _session_lock (self w) = false ->
  __session (self w) = Some s -> closed s = false ->
  net env (length (wire w)) = Response 400 body ->
  _generate_token env (S (S fuel)) w
  = (Raised BadRequest,
     with_self (set_lock false)
       (snd (print body
               (transmit token_route (token_params env (self w) refresh_token client_secret) s
                  (with_self (set_lock true) w))))).
Proof.
  intros Hrt Hcs Hne1 Hne2 Hlock Hs Hc Hnet.
  rewrite (_generate_token_exchange env (S fuel) w _ _ Hrt Hcs Hne1 Hne2 Hlock).
  rewrite (request_other_failure env fuel token_route _ (with_self (set_lock true) w)
             BadRequest
             (snd (print body
                     (transmit token_route
                        (token_params env (self w) refresh_token client_secret) s
                        (with_self (set_lock true) w))))).
  - reflexivity.
  - now rewrite (_request_response env _ _ (with_self (set_lock true) w) s 400 body Hs Hc Hnet).
  - discriminate.
Qed.

(** X14.  A refresh that is due and whose exchange is answered 400 is the
    last one: the loop posts the grant once, logs the warning, drops the
    refresh token and from then on sends validation requests only. *)
Theorem rejected_refresh_is_not_repeated env rounds fuel expires_in w s
        refresh_token client_secret body :
  _refresh_token (self w) = Some refresh_token ->
  _client_secret (self w) = Some client_secret ->
  refresh_token <> "" -> client_secret <> "" ->
  _session_lock (self w) = false ->
  __session (self w) = Some s -> closed s = false ->
  expires_in - 300 <= clock env (S (ticks w)) - clock env (ticks w) ->
  net env (length (wire w)) = Response 400 body ->
  let out := Refresher env (S rounds) (S (S fuel)) expires_in w in
  refreshable (self (snd out)) = false
  /\ (exists l,
         wire (snd out)
         = wire w ++ outgoing token_route
                       (token_params env (self w) refresh_token client_secret) s :: l
         /\ Forall validation_request l)
  /\ (exists later, warnings (snd out) = warnings w ++ disabled_warning :: later).
Proof.
  intros Hrt Hcs Hne1 Hne2 Hlock Hs Hc Hdue Hnet out. subst out.
  assert (Hcred : refreshable (self w) = true).
  { unfold refreshable. now rewrite Hrt, Hcs, (truthy_Some _ Hne1), (truthy_Some _ Hne2). }
  rewrite Refresher_start, Hcred. cbn [Refresher_while].
  unfold bind, try_except, sleep, time, lift, as_int, ret.
  cbn -[_generate_token _validate_token _request Refresher_while Z.min Z.sub Z.geb].
  assert ((clock env (S (ticks w)) - clock env (ticks w) >=? expires_in - 300) = true) as ->
      by (rewrite Z.geb_leb; now apply Z.leb_le).
  cbn -[_generate_token _validate_token _request Refresher_while Z.min Z.sub Z.geb].
  match goal with |- context [_generate_token env (S (S fuel)) ?w0] =>
    rewrite (_generate_token_rejected env fuel w0 s refresh_token client_secret body
               Hrt Hcs Hne1 Hne2 Hlock Hs Hc Hnet)
  end.
  cbv beta iota.
  match goal with |- context [Refresher_while env rounds (S (S fuel)) ?st ?e ?w5] =>
    pose proof (calm_Refresher_while env rounds (S (S fuel)) st e w5 eq_refl)
      as [Hfinal (l & Hl & Hall) _];
    destruct (traces_grow_Refresher_while env rounds (S (S fuel)) st e w5) as [_ _ [later Hlater]];
    set (final := Refresher_while env rounds (S (S fuel)) st e w5) in *
  end.
  split; [exact Hfinal|]. split.
  - exists l. split; [|exact Hall]. rewrite Hl. cbn. now rewrite <- app_assoc.
  - exists later. rewrite Hlater. cbn. now rewrite <- app_assoc.
Qed.

Lemma rejected_refresh_is_not_repeated_witness :
  let env := scripted [Response 400 JNull; Response 200 (obj [("expires_in", JNum 9000)]);
                       Response 200 (obj [("expires_in", JNum 9000)])] in
  let out := Refresher env 2 2 3600 sample_world in
  (_session_lock (self sample_world) = false
   /\ 3600 - 300 <= clock env 1 - clock env 0)
  /\ (sent_url <$> wire (snd out)) = [token_url; validate_url]
  /\ refreshable (self (snd out)) = false
  /\ warnings (snd out) = [disabled_warning].
Proof.
  intros env out.
  assert (Hdue : 3600 - 300 <= clock env 1 - clock env 0) by (vm_compute; discriminate).
  split; [split; [reflexivity | exact Hdue]|].
  destruct (rejected_refresh_is_not_repeated env 1 0 3600 sample_world sample_session
              "refresh" "secret" JNull eq_refl eq_refl ltac:(discriminate)
              ltac:(discriminate) eq_refl eq_refl eq_refl Hdue eq_refl)
    as (Hcred & _ & _).
  split; [vm_compute; reflexivity|]. split; [exact Hcred|]. vm_compute. reflexivity.
Defined.

(** A refresh whose exchange is accepted at once. *)
Lemma _generate_token_accepted env fuel w s refresh_token client_secret status refresh
      access_token :
  _refresh_token (self w) = Some refresh_token ->
  _client_secret (self w) = Some client_secret ->
  refresh_token <> "" -> client_secret <> "" ->
  _session_lock (self w) = false ->
  __session (self w) = Some s -> closed s = false ->
  net env (length (wire w)) = Response status refresh ->
  status = 200 \/ status = 202 ->
  getitem refresh "access_token" = inr access_token ->
  _generate_token env (S (S fuel)) w
  = (Returned (Some refresh),
     refreshed env access_token s
       (transmit token_route (token_params env (self w) refresh_token client_secret) s
          (with_self (set_lock true) w))).
Proof.
  intros Hrt Hcs Hne1 Hne2 Hlock Hs Hc Hnet Hok Htok.
  rewrite (_generate_token_exchange env (S fuel) w _ _ Hrt Hcs Hne1 Hne2 Hlock).
  rewrite (request_returned env fuel token_route _ (with_self (set_lock true) w) _ _
             (_request_accepted env _ _ (with_self (set_lock true) w) s status refresh
                Hs Hc Hnet Hok)).
  rewrite Htok. cbn [transmit self with_self set_lock __session]. now rewrite Hs.
Qed.

(** X18.  A refresh that is due and accepted is used at once: the round posts
    the grant with the old headers, notifies the owner of the new access
    token, and the validation request that follows in the same round already
    carries the new bearer token. *)
Theorem accepted_refresh_is_validated env rounds fuel expires_in w s
        refresh_token client_secret status refresh access_token :
  _refresh_token (self w) = Some refresh_token ->
  _client_secret (self w) = Some client_secret ->
  refresh_token <> "" -> client_secret <> "" ->
  _session_lock (self w) = false ->
  __session (self w) = Some s -> closed s = false ->
  expires_in - 300 <= clock env (S (ticks w)) - clock env (ticks w) ->
  net env (length (wire w)) = Response status refresh ->
  status = 200 \/ status = 202 ->
  getitem refresh "access_token" = inr access_token ->
  let s' := {| headers := <["Authorization" := "Bearer " +:+ str env access_token]>
                            (headers s);
               closed := closed s |} in
  let out := Refresher env (S rounds) (S (S fuel)) expires_in w in
  (exists l,
      wire (snd out)
      = wire w ++ outgoing token_route
                    (token_params env (self w) refresh_token client_secret) s
               :: outgoing validate_route NoKwargs s' :: l)
  /\ (exists l,
         dispatched (snd out) = dispatched w ++ ("refresh_token", [access_token]) :: l).
Proof.
  intros Hrt Hcs Hne1 Hne2 Hlock Hs Hc Hdue Hnet Hok Htok s' out. subst out.
  assert (Hcred : refreshable (self w) = true).
  { unfold refreshable. now rewrite Hrt, Hcs, (truthy_Some _ Hne1), (truthy_Some _ Hne2). }
  rewrite Refresher_start, Hcred. cbn [Refresher_while].
  unfold bind, try_except, sleep, time, lift, as_int, ret.
  cbn -[_generate_token _validate_token _request Refresher_while Z.min Z.sub Z.geb].
  assert ((clock env (S (ticks w)) - clock env (ticks w) >=? expires_in - 300) = true) as ->
      by (rewrite Z.geb_leb; now apply Z.leb_le).
  cbn -[_generate_token _validate_token _request Refresher_while Z.min Z.sub Z.geb].
  match goal with |- context [_generate_token env (S (S fuel)) ?w0] =>
    rewrite (_generate_token_accepted env fuel w0 s refresh_token client_secret status
               refresh access_token Hrt Hcs Hne1 Hne2 Hlock Hs Hc Hnet Hok Htok)
  end.
  cbv beta iota. rewrite _validate_token_plain.
  match goal with |- context [_request env validate_route NoKwargs ?w0] =>
    set (w3 := w0) in *
  end.
  assert (Hw3 : wire w3 = wire w ++ [outgoing token_route
                   (token_params env (self w) refresh_token client_secret) s]) by reflexivity.
  assert (Hd3 : dispatched w3 = dispatched w ++ [("refresh_token", [access_token])])
    by reflexivity.
  destruct (_request_first_sent env validate_route NoKwargs w3 s' eq_refl Hc) as [rest Hrest].
  pose proof (sending_dispatched _ _ _ _ (sending__request env validate_route NoKwargs w3))
    as Hdisp.
  assert (Hend : forall w4 : World,
             wire w4 = wire w3 ++ outgoing validate_route NoKwargs s' :: rest ->
             dispatched w4 = dispatched w3 ->
             forall wf, traces_grow w4 wf ->
             (exists l, wire wf = wire w ++ outgoing token_route
                            (token_params env (self w) refresh_token client_secret) s
                          :: outgoing validate_route NoKwargs s' :: l)
             /\ (exists l, dispatched wf
                           = dispatched w ++ ("refresh_token", [access_token]) :: l)).
  { intros w4 Hw4 Hd4 wf [[l1 H1] [l2 H2] _]. split.
    - exists (rest ++ l1). rewrite H1, Hw4, Hw3, <- !app_assoc. reflexivity.
    - exists l2. rewrite H2, Hd4, Hd3, <- app_assoc. reflexivity. }
  destruct (_request env validate_route NoKwargs w3) as [[validation|e| |] w4];
    cbn [fst snd] in Hrest, Hdisp.
  - destruct (getitem validation "expires_in") as [e|reported] eqn:Hget.
    + destruct (getitem_error _ _ _ Hget) as [kind ->].
      apply (Hend w4 Hrest Hdisp). reflexivity.
    + apply (Hend w4 Hrest Hdisp). apply traces_grow_Refresher_while.
  - destruct e; try (apply (Hend w4 Hrest Hdisp); reflexivity).
    match goal with |- context [Refresher_while env rounds (S (S fuel)) ?st ?e ?w5] =>
      apply (Hend w5); [exact Hrest | exact Hdisp | apply traces_grow_Refresher_while]
    end.
  - apply (Hend w4 Hrest Hdisp). reflexivity.
  - apply (Hend w4 Hrest Hdisp). reflexivity.
Qed.

Lemma accepted_refresh_is_validated_witness :
  let refresh := obj [("access_token", JStr "new"); ("refresh_token", JStr "next")] in
  let env := scripted [Response 200 refresh; Response 200 (obj [("expires_in", JNum 14000)])] in
  let out := Refresher env 1 2 3600 sample_world in
  (_session_lock (self sample_world) = false
   /\ 3600 - 300 <= clock env 1 - clock env 0)
  /\ (sent_url <$> wire (snd out)) = [token_url; validate_url]
  /\ ((fun x => sent_headers x !! "Authorization") <$> wire (snd out))
     = [Some "Bearer old"; Some "Bearer new"]
  /\ dispatched (snd out) = [("refresh_token", [JStr "new"])].
Proof.
  intros refresh env out.
  assert (Hdue : 3600 - 300 <= clock env 1 - clock env 0) by (vm_compute; discriminate).
  split; [split; [reflexivity | exact Hdue]|].
  destruct (accepted_refresh_is_validated env 0 0 3600 sample_world sample_session
              "refresh" "secret" 200 refresh (JStr "new") eq_refl eq_refl
              ltac:(discriminate) ltac:(discriminate) eq_refl eq_refl eq_refl Hdue eq_refl
              (or_introl eq_refl) eq_refl)
    as ([l Hwire] & [d Hdisp]).
  fold out in Hwire, Hdisp.
  split; [vm_compute; reflexivity|]. split; vm_compute; reflexivity.
Defined.

Lemma Refresher_while_not_a_number env rounds fuel start_time reported e w :
  as_int reported = inl e ->
  Refresher_while env (S rounds) fuel start_time reported w = (Raised e, w).
Proof. intros H. cbn [Refresher_while]. unfold bind at 1. now rewrite H. Qed.

(** X19.  The loop trusts the shape of an accepted validation.  In a round
    that makes no refresh of its own, a validation without [expires_in] ends
    the whole [Refresher] with the lookup error at once; one whose
    [expires_in] is no number ends it with [TypeError] at the top of the next
    round, before that round sleeps or sends anything. *)
Theorem refresher_ends_on_malformed_validation env rounds fuel expires_in w s status
        validation :
  __session (self w) = Some s -> closed s = false ->
  (refreshable (self w) = true ->
   clock env (S (ticks w)) - clock env (ticks w) < expires_in - 300) ->
  net env (length (wire w)) = Response status validation ->
  status = 200 \/ status = 202 ->
  let nap := Z.min ((if refreshable (self w) then expires_in else 3540 + 300) - 300) 3540 in
  (forall e,
      getitem validation "expires_in" = inl e ->
      let out := Refresher env (S rounds) (S fuel) expires_in w in
      fst out = Raised e
      /\ wire (snd out) = wire w ++ [outgoing validate_route NoKwargs s]
      /\ slept (snd out) = slept w ++ [nap]
      /\ self (snd out) = self w)
  /\ (forall reported e,
         getitem validation "expires_in" = inr reported ->
         as_int reported = inl e ->
         let out := Refresher env (S (S rounds)) (S fuel) expires_in w in
         fst out = Raised e
         /\ wire (snd out) = wire w ++ [outgoing validate_route NoKwargs s]
         /\ slept (snd out) = slept w ++ [nap]
         /\ self (snd out) = self w).
Proof.
  intros Hs Hc Hno Hnet Hok nap.
  destruct (first_round_world env expires_in w) as (Hself & Hwire & _ & Hslept).
  split.
  - intros e Hget out. subst out.
    rewrite (first_round env rounds fuel expires_in w Hno).
    match goal with |- context [_request env validate_route NoKwargs ?w0] =>
      set (w3 := w0) in *;
      rewrite (_request_accepted env validate_route NoKwargs w3 s status validation)
        by (rewrite ?Hself, ?Hwire; assumption)
    end.
    clearbody w3. rewrite Hget. cbn [fst snd transmit wire slept self].
    now rewrite Hwire, Hslept, Hself.
  - intros reported e Hget Hint out. subst out.
    rewrite (first_round env (S rounds) fuel expires_in w Hno).
    match goal with |- context [_request env validate_route NoKwargs ?w0] =>
      set (w3 := w0) in *;
      rewrite (_request_accepted env validate_route NoKwargs w3 s status validation)
        by (rewrite ?Hself, ?Hwire; assumption)
    end.
    clearbody w3. rewrite Hget, (Refresher_while_not_a_number _ _ _ _ _ _ _ Hint).
    cbn [fst snd transmit wire slept self].
    now rewrite Hwire, Hslept, Hself.
Qed.

Lemma refresher_ends_on_malformed_validation_witness :
  let env := scripted [Response 200 (obj [("expires_in", JStr "soon")])] in
  let out := Refresher env 2 1 7200 bare_world in
  (__session (self bare_world) = Some sample_session /\ closed sample_session = false
   /\ refreshable (self bare_world) = false)
  /\ fst out = Raised (PyError TypeError)
  /\ slept (snd out) = [3540]
  /\ (sent_url <$> wire (snd out)) = [validate_url].
Proof.
  intros env out. split; [now repeat split|].
  destruct (refresher_ends_on_malformed_validation env 0 0 7200 bare_world sample_session 200
              (obj [("expires_in", JStr "soon")]) eq_refl eq_refl ltac:(discriminate) eq_refl
              (or_introl eq_refl)) as [_ Hlate].
  destruct (Hlate (JStr "soon") (PyError TypeError) eq_refl eq_refl)
    as (Hout & Hwire & Hslept & _).
  fold out in Hout, Hwire, Hslept.
  split; [exact Hout|]. split; [exact Hslept|]. now rewrite Hwire.
Defined.

(** X23.  A loop started without a usable refresh token and client secret
    sends validation requests only, whatever the provider answers, so it
    never makes a token exchange, and its first sleep is the 3540 seconds of
    the default.  The later sleeps follow the provider: as long as the
    validations are answered 200 with a number under [expires_in], each is
    [min (e - 300) 3540] for the [e] of the validation before it. *)
Theorem bare_refresher_only_validates env rounds fuel expires_in w :
  refreshable (self w) = false ->
  let out := Refresher env rounds fuel expires_in w in
  (exists l, wire (snd out) = wire w ++ l /\ Forall validation_request l)
  /\ (rounds <> O -> exists rest, slept (snd out) = slept w ++ 3540 :: rest)
  /\ (forall s reported,
         __session (self w) = Some s -> closed s = false -> fuel <> O ->
         (forall k, (k < rounds)%nat ->
                    exists fields,
                      net env (length (wire w) + k)%nat = Response 200 (JObj fields)
                      /\ fields !! "expires_in" = Some (JNum (reported k))) ->
         fst out = OutOfFuel
         /\ slept (snd out) = slept w ++ naps rounds (3540 + 300) reported).
Proof.
  intros Hcred out.
  assert (Hout : out = Refresher_while env rounds fuel (clock env (ticks w))
                         (JNum (3540 + 300)) (snd (time env w)))
    by (subst out; now rewrite Refresher_start, Hcred).
  split; [|split].
  - destruct (calm_Refresher env rounds fuel expires_in w Hcred) as [_ Hwire _]. exact Hwire.
  - intros Hrounds. destruct rounds as [|rounds]; [easy|]. rewrite Hout.
    apply (Refresher_first_sleep env rounds fuel _ (3540 + 300) (snd (time env w)) Hcred).
  - intros s reported Hs Hc Hfuel Hnet. rewrite Hout.
    destruct fuel as [|fuel]; [easy|].
    apply (Refresher_while_naps env fuel rounds _ _ (snd (time env w)) s reported Hcred Hs Hc Hnet).
Qed.

Lemma bare_refresher_only_validates_witness :
  let env := scripted [Response 200 (obj [("expires_in", JNum 1000)]);
                       Response 200 (obj [("expires_in", JNum 9000)]);
                       Response 401 JNull] in
  let out := Refresher env 2 2 7200 bare_world in
  refreshable (self bare_world) = false
  /\ (sent_url <$> wire (snd out)) = [validate_url; validate_url]
  /\ fst out = OutOfFuel
  /\ slept (snd out) = [3540; 700].
Proof.
  intros env out. split; [reflexivity|].
  destruct (bare_refresher_only_validates env 2 2 7200 bare_world eq_refl)
    as (_ & _ & Hnaps).
  destruct (Hnaps sample_session
              (fun k : nat => match k with O => 1000 | _ => 9000 end)
              eq_refl eq_refl ltac:(discriminate)) as [Hout Hslept].
  { intros [|[|k]] Hk; [eexists; split; reflexivity ..|lia]. }
  fold out in Hout, Hslept. rewrite Hout, Hslept. now repeat split.
Defined.

(** * Properties of the device authorization flow *)

Section FlowProperties.

Import DeviceAuthFlow.

Context {Loop H : Type}.
Variable provider : Provider Loop H.
Variable w : Flow Loop H.

Arguments _http {Loop H}.
Arguments scopes {Loop H}.
Arguments client_loop {Loop H}.
Arguments client_http_loop {Loop H}.
Arguments client_dispatched {Loop H}.
Arguments loop {Loop H}.

(** X15.  [get_device_code] dispatches [code] as soon as the answer holds a
    [user_code], before it reads the other three keys: an answer without
    [user_code] fails with [KeyError] and dispatches nothing, an answer with
    it but without one of [device_code], [expires_in] and [interval] fails
    with [KeyError] after [code] has gone out, and a full answer gives the
    four values in that order.  A failing request dispatches nothing. *)
Theorem device_code_is_dispatched_first :
  let w0 := ensure_event_loops Loop H provider w in
  let call := start_device_auth_flow Loop H provider (scopes w0) (_http w0) in
  let out := get_device_code Loop H provider w in
  _http (snd out) = snd call
  /\ (forall e, fst call = inl e ->
                fst out = inl e /\ client_dispatched (snd out) = client_dispatched w)
  /\ (forall fields,
         fst call = inr (JObj fields) ->
         match fields !! "user_code" with
         | None =>
             fst out = inl (PyError KeyError)
             /\ client_dispatched (snd out) = client_dispatched w
         | Some user_code =>
             client_dispatched (snd out) = client_dispatched w ++ [("code", [user_code])]
             /\ fst out = match fields !! "device_code", fields !! "expires_in",
                                fields !! "interval" with
                          | Some device_code, Some expires_in, Some interval =>
                              inr (user_code, device_code, expires_in, interval)
                          | _, _, _ => inl (PyError KeyError)
                          end
         end).
Proof.
  intros w0 call out.
  assert (Hdisp : client_dispatched w0 = client_dispatched w)
    by (unfold w0, ensure_event_loops; now destruct (loop (_http w))).
  subst out. unfold get_device_code. fold w0. fold call.
  destruct call as [[e|data] h]; cbn [fst snd].
  - split; [reflexivity|]. split; [|discriminate]. intros e0 [= <-]. now split.
  - destruct data as [| | | | |fields]; cbn [getitem];
      try (split; [reflexivity|]; split; discriminate).
    split.
    + destruct (fields !! "user_code"); [|reflexivity]. cbn [getitem].
      destruct (fields !! "device_code"); [|reflexivity].
      destruct (fields !! "expires_in"); [|reflexivity].
      now destruct (fields !! "interval").
    + split; [discriminate|]. intros fields0 [= <-].
      destruct (fields !! "user_code") as [user_code|]; [|now split].
      destruct (fields !! "device_code"); [|cbn; now rewrite Hdisp].
      destruct (fields !! "expires_in"); [|cbn; now rewrite Hdisp].
      destruct (fields !! "interval"); cbn; now rewrite Hdisp.
Qed.

(** X16.  [poll_for_authorization] dispatches [auth] with both tokens or
    not at all: an answer that lacks [access_token] or [refresh_token] fails
    with [KeyError] and dispatches nothing, a full answer dispatches the two
    tokens and returns them.  A failing poll dispatches nothing. *)
Theorem authorization_is_dispatched_whole device_code expires_in interval :
  let w0 := ensure_event_loops Loop H provider w in
  let call := poll_for_token Loop H provider device_code expires_in interval (_http w0) in
  let out := poll_for_authorization Loop H provider device_code expires_in interval w in
  _http (snd out) = snd call
  /\ (forall e, fst call = inl e ->
                fst out = inl e /\ client_dispatched (snd out) = client_dispatched w)
  /\ (forall fields,
         fst call = inr (JObj fields) ->
         match fields !! "access_token", fields !! "refresh_token" with
         | Some access_token, Some refresh_token =>
             fst out = inr (access_token, refresh_token)
             /\ client_dispatched (snd out)
                = client_dispatched w ++ [("auth", [access_token; refresh_token])]
         | _, _ =>
             fst out = inl (PyError KeyError)
             /\ client_dispatched (snd out) = client_dispatched w
         end).
Proof.
  intros w0 call out.
  assert (Hdisp : client_dispatched w0 = client_dispatched w)
    by (unfold w0, ensure_event_loops; now destruct (loop (_http w))).
  subst out. unfold poll_for_authorization. fold w0. fold call.
  destruct call as [[e|data] h]; cbn [fst snd].
  - split; [reflexivity|]. split; [|discriminate]. intros e0 [= <-]. now split.
  - destruct data as [| | | | |fields]; cbn [getitem];
      try (split; [reflexivity|]; split; discriminate).
    split.
    + destruct (fields !! "access_token"); [|reflexivity].
      now destruct (fields !! "refresh_token").
    + split; [discriminate|]. intros fields0 [= <-].
      destruct (fields !! "access_token") as [access_token|]; [|now destruct (fields !! "refresh_token")].
      destruct (fields !! "refresh_token"); cbn; now rewrite Hdisp.
Qed.

(** X17.  The decorator looks at the loop of the flow's own HTTP client
    only.  When that is unset, a decorated method gives the running loop to
    the client and to the client's HTTP client before it runs; when it is
    set, the client's two loops stay as they are, also when they are unset.
    This holds for the three decorated methods, however they end. *)
Theorem event_loops_follow_the_http_loop token device_code expires_in interval :
  let after (w' : Flow Loop H) :=
    client_loop w' = (match loop (_http w) with
                      | None => Some (get_running_loop Loop H provider)
                      | Some _ => client_loop w
                      end)
    /\ client_http_loop w' = (match loop (_http w) with
                              | None => Some (get_running_loop Loop H provider)
                              | Some _ => client_http_loop w
                              end) in
  after (snd (get_device_code Loop H provider w))
  /\ after (snd (revoke_token Loop H provider token w))
  /\ after (snd (poll_for_authorization Loop H provider device_code expires_in interval w)).
Proof.
  intros after.
  assert (H0 : after (ensure_event_loops Loop H provider w))
    by (unfold after, ensure_event_loops; now destruct (loop (_http w))).
  set (w0 := ensure_event_loops Loop H provider w) in *.
  split; [|split].
  - unfold get_device_code. fold w0.
    destruct (start_device_auth_flow Loop H provider (scopes w0) (_http w0)) as [[e|data] h];
      [exact H0|].
    destruct (getitem data "user_code"); [exact H0|]. cbn [getitem].
    destruct (getitem data "device_code"); [exact H0|].
    destruct (getitem data "expires_in"); [exact H0|].
    destruct (getitem data "interval"); exact H0.
  - unfold revoke_token. fold w0.
    destruct (revoke_token_request Loop H provider token (_http w0)) as [r h]. exact H0.
  - unfold poll_for_authorization. fold w0.
    destruct (poll_for_token Loop H provider device_code expires_in interval (_http w0))
      as [[e|data] h]; [exact H0|].
    destruct (getitem data "access_token"); [exact H0|].
    destruct (getitem data "refresh_token"); exact H0.
Qed.

End FlowProperties.

Lemma device_code_is_dispatched_first_witness :
  let provider := sample_provider (inr (obj [("user_code", JStr "ABCD")])) (inl NotFound) in
  let out := DeviceAuthFlow.get_device_code unit nat provider sample_flow in
  fst out = inl (PyError KeyError)
  /\ DeviceAuthFlow.client_dispatched _ _ (snd out) = [("code", [JStr "ABCD"])].
Proof.
  intros provider out.
  destruct (device_code_is_dispatched_first provider sample_flow) as (_ & _ & Hdata).
  specialize (Hdata (list_to_map [("user_code", JStr "ABCD")]) eq_refl).
  cbn in Hdata. destruct Hdata as [Hdisp Hout]. now split.
Defined.

Lemma authorization_is_dispatched_whole_witness :
  let token := obj [("access_token", JStr "access"); ("refresh_token", JStr "refresh")] in
  let provider := sample_provider (inl NotFound) (inr token) in
  let out := DeviceAuthFlow.poll_for_authorization unit nat provider
               (JStr "device") (JNum 1800) (JNum 5) sample_flow in
  fst out = inr (JStr "access", JStr "refresh")
  /\ DeviceAuthFlow.client_dispatched _ _ (snd out)
     = [("auth", [JStr "access"; JStr "refresh"])].
Proof.
  intros token provider out.
  destruct (authorization_is_dispatched_whole provider sample_flow
              (JStr "device") (JNum 1800) (JNum 5)) as (_ & _ & Hdata).
  specialize (Hdata (list_to_map [("access_token", JStr "access");
                                  ("refresh_token", JStr "refresh")]) eq_refl).
  cbn in Hdata. exact Hdata.
Defined.

Section RunnerProperties.

Import DeviceAuthFlow.

Context {Loop H : Type}.
Variable provider : Provider Loop H.

Arguments _http {Loop H}.
Arguments client_dispatched {Loop H}.
Arguments loop {Loop H}.

Lemma ensure_event_loops_dispatched (w : Flow Loop H) :
  client_dispatched (ensure_event_loops Loop H provider w) = client_dispatched w.
Proof. unfold ensure_event_loops. now destruct (loop (_http w)). Qed.

Lemma get_device_code_returned (w w' : Flow Loop H) user_code device_code expires_in interval :
  get_device_code Loop H provider w = (inr (user_code, device_code, expires_in, interval), w') ->
  client_dispatched w' = client_dispatched w ++ [("code", [user_code])].
Proof.
  unfold get_device_code.
  pose proof (ensure_event_loops_dispatched w) as Hd.
  set (w0 := ensure_event_loops Loop H provider w) in *.
  destruct (start_device_auth_flow Loop H provider _ (_http w0)) as [[e|data] h];
    [discriminate|].
  destruct (getitem data "user_code") as [e|code]; [discriminate|].
  destruct (getitem data "device_code"); [discriminate|].
  destruct (getitem data "expires_in"); [discriminate|].
  destruct (getitem data "interval"); [discriminate|].
  intros [= <- <- <- <- <-]. cbn. now rewrite Hd.
Qed.

Lemma poll_for_authorization_returned (w w' : Flow Loop H) device_code expires_in interval
      access_token refresh_token :
  poll_for_authorization Loop H provider device_code expires_in interval w
  = (inr (access_token, refresh_token), w') ->
  client_dispatched w'
  = client_dispatched w ++ [("auth", [access_token; refresh_token])].
Proof.
  unfold poll_for_authorization.
  pose proof (ensure_event_loops_dispatched w) as Hd.
  set (w0 := ensure_event_loops Loop H provider w) in *.
  destruct (poll_for_token Loop H provider _ _ _ (_http w0)) as [[e|data] h];
    [discriminate|].
  destruct (getitem data "access_token") as [e|access]; [discriminate|].
  destruct (getitem data "refresh_token") as [e|refresh]; [discriminate|].
  intros [= <- <- <-]. cbn. now rewrite Hd.
Qed.

(** X20.  The authorization block of [run] closes the flow's HTTP client
    last, however the block ends, and a failing [close] takes the place of
    the block's result, tokens included.  When the block does give tokens,
    the client has been notified of [code] and then of [auth] with those
    tokens, and of nothing else. *)
Theorem runner_closes_after_authorizing (w : Flow Loop H) :
  let out := runner_authorize Loop H provider w in
  (exists h,
      _http (snd out) = snd (http_close Loop H provider h)
      /\ forall e, fst (http_close Loop H provider h) = inl e -> fst out = inl e)
  /\ (forall access_token refresh_token,
         fst out = inr (access_token, refresh_token) ->
         exists user_code,
           client_dispatched (snd out)
           = client_dispatched w ++ [("code", [user_code]);
                                     ("auth", [access_token; refresh_token])]).
Proof.
  intros out. subst out. unfold runner_authorize.
  destruct (get_device_code Loop H provider w) as [[e|[[[user_code device_code] expires_in]
                                                         interval]] w1] eqn:Hcode.
  - unfold close. split.
    + exists (_http w1). destruct (http_close Loop H provider (_http w1)) as [[e'|[]] h].
      * split; [reflexivity|]. now intros e0 [= <-].
      * split; [reflexivity|]. discriminate.
    + intros a r. now destruct (http_close Loop H provider (_http w1)) as [[e'|[]] h].
  - destruct (poll_for_authorization Loop H provider device_code expires_in interval w1)
      as [[e|[access refresh]] w2] eqn:Hpoll; unfold close.
    + split.
      * exists (_http w2). destruct (http_close Loop H provider (_http w2)) as [[e'|[]] h].
        -- split; [reflexivity|]. now intros e0 [= <-].
        -- split; [reflexivity|]. discriminate.
      * intros a r. now destruct (http_close Loop H provider (_http w2)) as [[e'|[]] h].
    + split.
      * exists (_http w2). destruct (http_close Loop H provider (_http w2)) as [[e'|[]] h].
        -- split; [reflexivity|]. now intros e0 [= <-].
        -- split; [reflexivity|]. discriminate.
      * intros a r.
        destruct (http_close Loop H provider (_http w2)) as [[e'|[]] h]; [discriminate|].
        intros [= <- <-]. exists user_code. cbn.
        rewrite (poll_for_authorization_returned _ _ _ _ _ _ _ Hpoll).
        rewrite (get_device_code_returned _ _ _ _ _ _ Hcode).
        now rewrite <- app_assoc.
Qed.

End RunnerProperties.

Lemma runner_closes_after_authorizing_witness :
  let device := obj [("user_code", JStr "ABCD"); ("device_code", JStr "device");
                     ("expires_in", JNum 1800); ("interval", JNum 5)] in
  let token := obj [("access_token", JStr "access"); ("refresh_token", JStr "refresh")] in
  let out := DeviceAuthFlow.runner_authorize unit nat
               (sample_provider (inr device) (inr token)) sample_flow in
  fst out = inr (JStr "access", JStr "refresh")
  /\ DeviceAuthFlow.client_dispatched _ _ (snd out)
     = [("code", [JStr "ABCD"]); ("auth", [JStr "access"; JStr "refresh"])]
  /\ DeviceAuthFlow.inner _ _ (DeviceAuthFlow._http _ _ (snd out)) = 3%nat.
Proof.
  intros device token out.
  destruct (runner_closes_after_authorizing (sample_provider (inr device) (inr token))
              sample_flow) as [_ Hsent].
  destruct (Hsent (JStr "access") (JStr "refresh") eq_refl) as [user_code Hdisp].
  fold out in Hdisp. split; [reflexivity|]. split; reflexivity.
Defined.
